(** * Ensemble sentiment reconciliation (src/nlp/sentiment_classifier.py)

    A shallow embedding of [SentimentEnsembler]: the equal-weight ensemble of
    three sentiment scorers, the star-rating rule, the disagreement flag and
    the batch runner over a data frame.

    Python's [float] is IEEE-754 binary64; it is modelled by Rocq's primitive
    [float], whose operations are specified by [FloatAxioms] against
    [SpecFloat].  Python's [int] is [Z], [str] is [string], a [set] of
    strings is a [gset string] and a [dict] with string keys is a
    [gmap string _].  Raised exceptions are values of an error monad. *)

From Stdlib Require Import ZArith QArith Qpower Floats Lia.
From stdpp Require Import gmap strings list pretty.

Local Open Scope Z_scope.

(** ** Python runtime *)

Module Py.

(** The built-in exception classes that the module can raise.  [KeyError]
    carries its argument (a missing key, or the message given to
    [raise KeyError(...)]). *)
Inductive exn : Type :=
| KeyError (arg : string)
| ValueError
| TypeError
| OverflowError.

Definition exn_class (e : exn) : string :=
  match e with
  | KeyError _ => "KeyError"
  | ValueError => "ValueError"
  | TypeError => "TypeError"
  | OverflowError => "OverflowError"
  end.

(** A computation either returns a value or raises. *)
Inductive result (A : Type) : Type :=
| Ok (a : A)
| Raise (e : exn).
Arguments Ok {A} a.
Arguments Raise {A} e.

Definition bind {A B : Type} (c : result A) (k : A -> result B) : result B :=
  match c with
  | Ok a => k a
  | Raise e => Raise e
  end.

#[global] Instance result_ret : MRet result := @Ok.
#[global] Instance result_bind : MBind result :=
  fun A B k c => bind c k.

(** [for x in xs: ys.append(f(x))], stopping at the first exception. *)
Fixpoint for_each {A B : Type} (f : A -> result B) (xs : list A)
  : result (list B) :=
  match xs with
  | [] => Ok []
  | x :: xs' =>
      bind (f x) (fun y => bind (for_each f xs') (fun ys => Ok (y :: ys)))
  end.

(** Values held in the cells of a data frame, as the loop body of [run]
    receives them from [row[...]]. *)
Inductive pyval : Type :=
| PyStr (s : string)
| PyInt (z : Z)
| PyFloat (f : float)
| PyBool (b : bool)
| PyNone.

(** Comparisons written as in the source: [x >= y] and [x > y].  With a
    NaN operand both are false, as in IEEE-754. *)
Definition ge (x y : float) : bool := (y <=? x)%float.
Definition le (x y : float) : bool := (x <=? y)%float.
Definition gt (x y : float) : bool := (y <? x)%float.

(** [float(z)] for an integer operand of float arithmetic, as in
    [ens_score - rule_val]: exact up to 2^53 and rounded to nearest up to
    2^63.  The source converts only -1, 0 and 1. *)
Definition float_of_int (z : Z) : float :=
  match z with
  | Z0 => 0%float
  | Zpos _ => of_uint63 (Uint63.of_Z z)
  | Zneg p => (- of_uint63 (Uint63.of_Z (Zpos p)))%float
  end.

(** [int(x)] on a float: truncation toward zero; NaN and the infinities
    raise. *)
Definition int_of_float (f : float) : result Z :=
  match Prim2SF f with
  | S754_nan => Raise ValueError
  | S754_infinity _ => Raise OverflowError
  | S754_zero _ => Ok 0
  | S754_finite s m e =>
      let a := match e with
               | Z0 => Zpos m
               | Zpos _ => Z.shiftl (Zpos m) e
               | Zneg _ => Z.shiftr (Zpos m) (- e)
               end in
      Ok (if s then - a else a)
  end.

End Py.
Import Py.

(** The parts of the Python runtime whose algorithms play no role here:
    the text of [str(x)] for a float and the parser behind [int(s)] for a
    string ([None] when [int] raises [ValueError]). *)
Class Builtins : Type := {
  float_repr : float -> string;
  int_of_str : string -> option Z;
}.

(** [str(x)] *)
Definition py_str `{Builtins} (v : pyval) : string :=
  match v with
  | PyStr s => s
  | PyInt z => pretty z
  | PyFloat f => float_repr f
  | PyBool b => if b then "True" else "False"
  | PyNone => "None"
  end.

(** [int(x)] *)
Definition py_int `{Builtins} (v : pyval) : result Z :=
  match v with
  | PyInt z => Ok z
  | PyBool b => Ok (if b then 1 else 0)
  | PyFloat f => int_of_float f
  | PyStr s => match int_of_str s with
               | Some z => Ok z
               | None => Raise ValueError
               end
  | PyNone => Raise TypeError
  end.

(** [d[k]] on a dict with string keys. *)
Definition dict_get {V : Type} (d : gmap string V) (k : string) : result V :=
  match d !! k with
  | Some v => Ok v
  | None => Raise (KeyError k)
  end.

(** ** Data frames

    A frame is its column labels and its rows in positional order.  [run]
    re-indexes both frames it concatenates ([reset_index(drop=True)]), so
    row labels play no role and are left out. *)
Record DataFrame : Type := {
  columns : list string;
  rows : list (list pyval);
}.

(** The frames considered: distinct column labels (so that [row[c]] is a
    cell and not a sub-series) and one cell per column in every row. *)
Definition wf_frame (df : DataFrame) : Prop :=
  NoDup (columns df) ∧
  Forall (fun row => length row = length (columns df)) (rows df).

(** [row[c]] for a row of a frame with column labels [cols]. *)
Definition row_get (cols : list string) (row : list pyval) (c : string)
  : result pyval :=
  match list_find (c =.) cols with
  | Some (i, _) =>
      match row !! i with
      | Some v => Ok v
      | None => Raise (KeyError c)
      end
  | None => Raise (KeyError c)
  end.

(** [pd.concat([a, b], axis=1)] for two frames of the same height, both
    indexed 0..n-1: the rows are joined position by position. *)
Definition concat_axis1 (a b : DataFrame) : DataFrame :=
  {| columns := columns a ++ columns b;
     rows := zip_with app (rows a) (rows b) |}.

(** ** Floating-point constants of the source *)

(** The literal [0.05]: the double nearest to 1/20. *)
Definition lit_0_05 : float := 0x1.999999999999ap-5%float.

(** The default [threshold] of [flag_disagreement], the literal [0.5]. *)
Definition default_threshold : float := 0.5%float.

(** [x1 + x2 + ... + xn], added from left to right. *)
Definition float_sum (xs : list float) : float :=
  match xs with
  | [] => 0%float
  | x :: xs' => foldl PrimFloat.add x xs'
  end.

(** Modelled from the spec: [np.std] belongs to numpy, outside the
    repository; the spec gives it as the population standard deviation, the
    square root of the mean squared deviation from the mean (divisor N, not
    N-1), here evaluated in binary64 from left to right. *)
Definition population_standard_deviation (xs : list float) : float :=
  let n := float_of_int (Z.of_nat (length xs)) in
  let mean := (float_sum xs / n)%float in
  let sq := fun x => ((x - mean) * (x - mean))%float in
  PrimFloat.sqrt (float_sum (sq <$> xs) / n)%float.

Definition np_std : list float -> float := population_standard_deviation.

(** ** The ensembler *)

(** The object [self]: the three scorers behind [_bert_score],
    [_vader_score] and [_textblob_score] (DistilBERT, VADER, TextBlob), which
    are external models. *)
Class SentimentEnsembler : Type := {
  _bert_score : string -> float;
  _vader_score : string -> float;
  _textblob_score : string -> float;
}.

(** The dict returned by [compute_ensemble]. *)
Record EnsembleResult : Type := {
  bert : float;
  vader : float;
  textblob : float;
  ensemble : float;
  label : string;
  uncertainty : float;
}.

(** The same dict after [run] has added ["rule_label"] and ["flag"]. *)
Record SentimentRecord : Type := {
  scores : EnsembleResult;
  rule_label : string;
  flag : bool;
}.

(** Lines 107-113 of [compute_ensemble]: the label of an ensemble score. *)
Definition threshold_label (ensemble_score : float) : string :=
  if ge ensemble_score lit_0_05 then "positive"
  else if le ensemble_score (- lit_0_05) then "negative"
  else "neutral".

Definition compute_ensemble `{SentimentEnsembler} (text : string)
  : EnsembleResult :=
  let b_score := _bert_score text in
  let v_score := _vader_score text in
  let t_score := _textblob_score text in
  let ensemble_score := ((b_score + v_score + t_score) / 3)%float in
  let uncertainty := np_std [b_score; v_score; t_score] in
  let label := threshold_label ensemble_score in
  {| bert := b_score;
     vader := v_score;
     textblob := t_score;
     ensemble := ensemble_score;
     label := label;
     uncertainty := uncertainty |}.

(** The local [allowed] of [apply_rating_rule]. *)
Definition allowed_labels (rating : Z) : gset string :=
  if bool_decide (5 ≤ rating) then {[ "positive"; "neutral"; "negative" ]}
  else if bool_decide (rating = 4) then {[ "positive"; "neutral"; "negative" ]}
  else if bool_decide (rating = 3) then {[ "positive"; "neutral"; "negative" ]}
  else if bool_decide (rating = 2) then {[ "neutral"; "negative" ]}
  else {[ "negative" ]}.

Definition apply_rating_rule (ensemble_label : string) (rating : Z) : string :=
  let allowed := allowed_labels rating in
  if bool_decide (ensemble_label ∈ allowed) then ensemble_label else "neutral".

(** The dict literal of [flag_disagreement]. *)
Definition rule_values : gmap string Z :=
  {[ "positive" := 1; "neutral" := 0; "negative" := -1 ]}.

Definition flag_disagreement (ens_label rule_label : string)
    (ens_score threshold : float) : result bool :=
  rule_val ← dict_get rule_values rule_label;
  mret (bool_decide (ens_label ≠ rule_label)
        && gt (abs (ens_score - float_of_int rule_val)) threshold).

(** The items of a finished record, in insertion order. *)
Definition record_items (r : SentimentRecord) : list (string * pyval) :=
  [ ("bert", PyFloat (bert (scores r)));
    ("vader", PyFloat (vader (scores r)));
    ("textblob", PyFloat (textblob (scores r)));
    ("ensemble", PyFloat (ensemble (scores r)));
    ("label", PyStr (label (scores r)));
    ("uncertainty", PyFloat (uncertainty (scores r)));
    ("rule_label", PyStr (rule_label r));
    ("flag", PyBool (flag r)) ].

(** [pd.DataFrame(records, ...)] for a list of dicts with the same keys:
    one column per key, in insertion order; no column for an empty list. *)
Definition frame_of_records (records : list SentimentRecord) : DataFrame :=
  {| columns := match records with
                | [] => []
                | r :: _ => (record_items r).*1
                end;
     rows := (fun r => (record_items r).*2) <$> records |}.

(** The body of the loop of [run]. *)
Definition process_row `{Builtins} `{SentimentEnsembler}
    (cols : list string) (text_col : string) (row : list pyval)
  : result SentimentRecord :=
  t ← row_get cols row text_col;
  let text := py_str t in
  r ← row_get cols row "rating";
  rating ← py_int r;
  let rec := compute_ensemble text in
  let rule := apply_rating_rule (label rec) rating in
  fl ← flag_disagreement (label rec) rule (ensemble rec) default_threshold;
  mret {| scores := rec; rule_label := rule; flag := fl |}.

Definition run `{Builtins} `{SentimentEnsembler}
    (df : DataFrame) (text_col : string) : result DataFrame :=
  if bool_decide (text_col ∉ columns df) || bool_decide ("rating" ∉ columns df)
  then Raise (KeyError ("Required columns missing: '" +:+ text_col
                        +:+ "' and/or 'rating'"))
  else
    records ← for_each (process_row (columns df) text_col) (rows df);
    let sent_df := frame_of_records records in
    mret (concat_axis1 df sent_df).

(** [text_col] defaults to ["normalized_review"]. *)
Definition run_default `{Builtins} `{SentimentEnsembler} (df : DataFrame)
  : result DataFrame :=
  run df "normalized_review".

(** ** Exact values of doubles *)

(** The exact value of a finite double, a rational. *)
Definition SF2Q (x : spec_float) : Q :=
  match x with
  | S754_finite s m e => (inject_Z (cond_Zopp s (Zpos m)) * 2 ^ e)%Q
  | _ => 0%Q
  end.

(** The exact reading of [s >= q], [s <= q] and [s > q] for a double [s]
    and a rational [q]: NaN compares false, the infinities lie beyond every
    rational. *)
Definition at_least (q : Q) (s : float) : Prop :=
  match Prim2SF s with
  | S754_nan => False
  | S754_infinity sg => sg = false
  | x => (q <= SF2Q x)%Q
  end.

Definition at_most (q : Q) (s : float) : Prop :=
  match Prim2SF s with
  | S754_nan => False
  | S754_infinity sg => sg = true
  | x => (SF2Q x <= q)%Q
  end.

Definition above (q : Q) (s : float) : Prop :=
  match Prim2SF s with
  | S754_nan => False
  | S754_infinity sg => sg = false
  | x => (q < SF2Q x)%Q
  end.

(** ** Vocabulary of the specification *)

(** The three sentiment labels. *)
Definition labels : list string := ["positive"; "neutral"; "negative"].

(** [numeric]: positive = +1, neutral = 0, negative = -1. *)
Definition numeric (l : string) : float :=
  if bool_decide (l = "positive") then 1%float
  else if bool_decide (l = "negative") then (-1)%float
  else 0%float.

(** The two-condition flag: the rating is 1 or 2 and the ensemble score is
    strictly greater than 0.5. *)
Definition low_rating_high_score (rating : Z) (ensemble_score : float) : bool :=
  bool_decide (rating = 1 ∨ rating = 2) && gt ensemble_score 0.5.

(** The record that the loop body of [run] builds from an ensemble result
    and a rating when no lookup fails. *)
Definition reconciled (rec : EnsembleResult) (rating : Z) : SentimentRecord :=
  let rule := apply_rating_rule (label rec) rating in
  {| scores := rec;
     rule_label := rule;
     flag := bool_decide (label rec ≠ rule)
             && gt (abs (ensemble rec - numeric rule)) default_threshold |}.

(** The names of the fields that [run] adds to every record. *)
Definition sentiment_fields : list string :=
  ["bert"; "vader"; "textblob"; "ensemble"; "label"; "uncertainty";
   "rule_label"; "flag"].

(** The message of the [KeyError] raised by the column check of [run]. *)
Definition missing_columns_message (text_col : string) : string :=
  "Required columns missing: '" +:+ text_col +:+ "' and/or 'rating'".

(** ** Sample inputs *)

(** A runtime whose [int(s)] accepts no string, and scorers that return the
    same triple for every text. *)
Definition plain_builtins : Builtins :=
  {| float_repr := fun _ => "nan"; int_of_str := fun _ => None |}.

Definition constant_scorers (b v t : float) : SentimentEnsembler :=
  {| _bert_score := fun _ => b;
     _vader_score := fun _ => v;
     _textblob_score := fun _ => t |}.

Definition sample_reviews : DataFrame :=
  {| columns := ["bank"; "normalized_review"; "rating"];
     rows := [ [PyStr "CBE"; PyStr "good app"; PyInt 1];
               [PyStr "BOA"; PyStr "crash on login"; PyInt 5] ] |}.

(** The same reviews without their rating column. *)
Definition unrated_reviews : DataFrame :=
  {| columns := ["bank"; "normalized_review"];
     rows := [ [PyStr "CBE"; PyStr "good app"];
               [PyStr "BOA"; PyStr "crash on login"] ] |}.

(** Evaluates the rating rule and the label comparison on literal labels. *)
Ltac eval_labels :=
  repeat match goal with
    | |- context [apply_rating_rule ?l ?r] =>
        let v := eval vm_compute in (apply_rating_rule l r) in
        change (apply_rating_rule l r) with v
    | |- context [numeric ?l] =>
        let v := eval vm_compute in (numeric l) in
        change (numeric l) with v
    | |- context [@bool_decide ?P ?d] =>
        let v := eval vm_compute in (@bool_decide P d) in
        change (@bool_decide P d) with v
    end.

(** ** Vocabulary of the further properties *)

(** The label of the opposite score. *)
Definition mirror_label (l : string) : string :=
  if bool_decide (l = "positive") then "negative"
  else if bool_decide (l = "negative") then "positive"
  else l.

(** The labels in increasing order of sentiment. *)
Definition label_rank (l : string) : Z :=
  if bool_decide (l = "positive") then 1
  else if bool_decide (l = "negative") then -1
  else 0.

(** What [apply_rating_rule] amounts to on any string and any integer
    rating. *)
Definition rule_outcome (l : string) (rating : Z) : string :=
  if bool_decide (l = "negative") then "negative"
  else if bool_decide (l = "positive" ∧ 3 ≤ rating) then "positive"
  else "neutral".

(** Reviews whose second rating cell is NaN and whose third is a string. *)
Definition broken_reviews : DataFrame :=
  {| columns := ["bank"; "normalized_review"; "rating"];
     rows := [ [PyStr "CBE"; PyStr "good app"; PyInt 4];
               [PyStr "BOA"; PyStr "crash on login"; PyFloat nan];
               [PyStr "Dashen"; PyStr "slow"; PyStr "five"] ] |}.

(** Decides goals about literal labels and integer ratings. *)
Ltac label_cases :=
  repeat case_bool_decide; subst; unfold labels;
  rewrite ?elem_of_union, ?elem_of_singleton, ?elem_of_cons, ?elem_of_nil;
  intuition (try discriminate; try congruence; try lia).

(** ** Theme tagging (src/nlp/keyword_theme_extractor.py)

    [ThemeExtractor] tags the frame that [run] returns.  A theme's seed
    dict is kept as the list of its items in insertion order, the order in
    which [dict.items()] yields them; the outer dict is only read with
    [get]. *)

(** [str.lower()], whose case tables are Python's. *)
Class StrMethods : Type := {
  str_lower : string -> string;
}.

(** [kw in text] on strings: [kw] occurs in [text]. *)
Fixpoint contains (kw text : string) : bool :=
  String.prefix kw text ||
  match text with
  | EmptyString => false
  | String _ text' => contains kw text'
  end.

(** The inner loop of [tag_review]: some keyword occurs in the text. *)
Definition any_keyword (keywords : list string) (text_low : string) : bool :=
  existsb (fun kw => contains kw text_low) keywords.

(** The outer loop of [tag_review]: the themes appended to [themes]. *)
Fixpoint matched_themes (bank_seeds : list (string * list string))
    (text_low : string) : list string :=
  match bank_seeds with
  | [] => []
  | (theme, keywords) :: rest =>
      if any_keyword keywords text_low
      then theme :: matched_themes rest text_low
      else matched_themes rest text_low
  end.

Definition tag_review `{StrMethods}
    (seed_map : gmap string (list (string * list string)))
    (text bank : string) : list string :=
  let text_low := str_lower text in
  let bank_seeds := default [] (seed_map !! bank) in
  let themes := matched_themes bank_seeds text_low in
  match themes with
  | [] => ["Other"]
  | _ :: _ => themes
  end.

(** The seed keywords that scripts/sentiment_pipeline.py gives to each of
    its three banks. *)
Definition pipeline_seeds : list (string * list string) :=
  [ ("Concise Feedback", ["good"; "bad"; "fine"; "ok"]);
    ("Account Access", ["login"; "otp"; "password"; "pin"]);
    ("Connection Issues", ["network"; "offline"; "timeout"; "disconnect"]);
    ("Usability", ["hard to use"; "navigate"; "layout"; "ux"]);
    ("Performance", ["slow"; "lag"; "speed"; "delay"; "fast"]);
    ("Functionality", ["feature"; "cannot"; "unable"; "doesn't"; "option"]);
    ("Feature Requests", ["should have"; "wish"; "add"; "feature request"]);
    ("Security & Trust", ["secure"; "fraud"; "trust"; "encryption"; "leak"]);
    ("Notifications", ["alert"; "notification"; "push"; "reminder"; "email"]);
    ("Stability & Bugs", ["crash"; "freeze"; "error"; "bug"; "exception"]) ].

Definition pipeline_seed_map : gmap string (list (string * list string)) :=
  list_to_map [ ("CBE", pipeline_seeds); ("BOA", pipeline_seeds);
                ("Dashen", pipeline_seeds) ].

(** [kw] occurs in [text]. *)
Definition occurs (kw text : string) : Prop :=
  exists a b : string, text = a +:+ kw +:+ b.

(** Lower case for texts of ASCII characters, where [str.lower()] maps A-Z
    to a-z and keeps every other character. *)
Definition ascii_lower (c : Ascii.ascii) : Ascii.ascii :=
  let n := Ascii.nat_of_ascii c in
  if (65 <=? n)%nat && (n <=? 90)%nat then Ascii.ascii_of_nat (n + 32) else c.

Fixpoint ascii_lower_string (s : string) : string :=
  match s with
  | EmptyString => EmptyString
  | String c s' => String (ascii_lower c) (ascii_lower_string s')
  end.

Definition ascii_str_methods : StrMethods :=
  {| str_lower := ascii_lower_string |}.

(** ** Text normalisation (src/nlp/text_normalizer.py)

    [TextNormalizer] prepares the text column that [run] scores.  Its
    regular expressions work on character classes, so here a Python [str]
    is the list of its code points. *)

(** The code points of an ASCII literal. *)
Definition codes (s : string) : list N :=
  Ascii.N_of_ascii <$> String.list_ascii_of_string s.

(** Whitespace as [\s] and [str.strip()] see it: the characters for which
    CPython's [Py_UNICODE_ISSPACE] holds. *)
Definition isspace (c : N) : bool :=
  ((9 <=? c) && (c <=? 13) || (28 <=? c) && (c <=? 32)
   || (c =? 133) || (c =? 160) || (c =? 5760)
   || (8192 <=? c) && (c <=? 8202)
   || (c =? 8232) || (c =? 8233) || (c =? 8239) || (c =? 8287)
   || (c =? 12288))%N.

(** The characters of the class [A-Za-z0-9.,!?'], which together with
    whitespace survive the second substitution of [_basic_clean]. *)
Definition is_basic (c : N) : bool :=
  ((65 <=? c) && (c <=? 90) || (97 <=? c) && (c <=? 122)
   || (48 <=? c) && (c <=? 57)
   || (c =? 46) || (c =? 44) || (c =? 33) || (c =? 63) || (c =? 39))%N.

(** The rest of [l] after the literal prefix [p], if [l] starts with it. *)
Fixpoint strip_prefix (p l : list N) : option (list N) :=
  match p, l with
  | [], _ => Some l
  | a :: p', b :: l' => if (a =? b)%N then strip_prefix p' l' else None
  | _ :: _, [] => None
  end.

(** [\S+] can match at the head of [l]. *)
Definition non_space_follows (l : list N) : bool :=
  match l with
  | c :: _ => negb (isspace c)
  | [] => false
  end.

(** The pattern [https?://\S+|www\.\S+] matches at the head of [l]: the
    optional [s] is tried first, then skipped. *)
Definition url_at (l : list N) : bool :=
  let tail_ok (l : list N) : bool :=
    match strip_prefix (codes "://") l with
    | Some l' => non_space_follows l'
    | None => false
    end in
  match strip_prefix (codes "http") l with
  | Some l1 =>
      match l1 with
      | c :: l2 => (c =? 115)%N && tail_ok l2 || tail_ok l1
      | [] => false
      end
  | None => false
  end
  ||
  match strip_prefix (codes "www.") l with
  | Some l1 => non_space_follows l1
  | None => false
  end.

(** [re.sub(r"https?://\S+|www\.\S+", " ", txt)].  The scan goes from left
    to right; the prefixes hold no whitespace and [\S+] is greedy, so a
    match is the whole run of non-whitespace characters from its first
    character on, and the scan resumes at the whitespace that ends it.
    [in_match] says that the scan is inside such a run. *)
Fixpoint sub_urls (in_match : bool) (l : list N) : list N :=
  match l with
  | [] => []
  | c :: l' =>
      if in_match then
        if isspace c then c :: sub_urls false l' else sub_urls true l'
      else if url_at l then 32%N :: sub_urls true l'
      else c :: sub_urls false l'
  end.

(** [re.sub(r"[^A-Za-z0-9.,!?'\s]", " ", txt)] *)
Definition sub_other (l : list N) : list N :=
  (fun c => if is_basic c || isspace c then c else 32%N) <$> l.

(** [re.sub(r"\s+", " ", txt)]: every run of whitespace becomes one space;
    [after_space] says that the previous character was whitespace. *)
Fixpoint sub_spaces (after_space : bool) (l : list N) : list N :=
  match l with
  | [] => []
  | c :: l' =>
      if isspace c then
        if after_space then sub_spaces true l' else 32%N :: sub_spaces true l'
      else c :: sub_spaces false l'
  end.

(** [str.lstrip()] and [str.strip()] *)
Fixpoint lstrip (l : list N) : list N :=
  match l with
  | [] => []
  | c :: l' => if isspace c then lstrip l' else l
  end.

Definition strip (l : list N) : list N := rev (lstrip (rev (lstrip l))).

(** [str.lower()] at the end of [_basic_clean]: the text then holds only
    characters of [A-Za-z0-9.,!?'] and spaces ([sub_other_chars],
    [sub_spaces_chars]), on which it maps A-Z to a-z and keeps the rest. *)
Definition lower_basic (c : N) : N :=
  if ((65 <=? c) && (c <=? 90))%N then (c + 32)%N else c.

Definition _basic_clean (text : list N) : list N :=
  let txt := text in
  let txt := sub_urls false txt in
  let txt := sub_other txt in
  let txt := strip (sub_spaces false txt) in
  lower_basic <$> txt.

(** A token of a spaCy document. *)
Record Token : Type := {
  lemma_ : list N;
  is_stop : bool;
}.

(** The object [self] of [TextNormalizer]: the two switches, and the
    SymSpell and spaCy objects when they were loaded: the terms of the
    suggestions of [lookup_compound(text, max_edit_distance=2)], and the
    tokens of [nlp(text)]. *)
Record TextNormalizer : Type := {
  use_symspell : bool;
  use_spacy : bool;
  symspell : option (list N -> list (list N));
  nlp : option (list N -> list Token);
}.

Definition _correct_spelling (self : TextNormalizer) (text : list N)
  : list N :=
  match symspell self, text with
  | None, _ | _, [] => text
  | Some lookup_compound, _ :: _ =>
      match lookup_compound text with
      | term :: _ => term
      | [] => text
      end
  end.

(** [" ".join(parts)] *)
Fixpoint join_spaces (parts : list (list N)) : list N :=
  match parts with
  | [] => []
  | [p] => p
  | p :: rest => p ++ 32%N :: join_spaces rest
  end.

Definition _lemmatize (self : TextNormalizer) (text : list N) : list N :=
  match nlp self, text with
  | None, _ | _, [] => text
  | Some nlp, _ :: _ =>
      join_spaces
        (lemma_ <$>
           filter (fun token =>
                     is_stop token = false /\ strip (lemma_ token) ≠ [])
                  (nlp text))
  end.

(** [normalize] on a [str]. *)
Definition normalize (self : TextNormalizer) (text : list N) : list N :=
  if bool_decide (strip text = []) then []
  else
    let result := _basic_clean text in
    let result :=
      if use_symspell self then _correct_spelling self result else result in
    let result :=
      if use_spacy self then _lemmatize self result else result in
    result.

(** The alphabet of cleaned text: a-z, 0-9, [.,!?'] and the space. *)
Definition is_clean (c : N) : bool :=
  ((97 <=? c) && (c <=? 122) || (48 <=? c) && (c <=? 57)
   || (c =? 46) || (c =? 44) || (c =? 33) || (c =? 63) || (c =? 39)
   || (c =? 32))%N.

(** No two spaces in a row. *)
Definition single_spaced (l : list N) : Prop :=
  forall i : nat, l !! i = Some 32%N -> l !! S i <> Some 32%N.

(** A normalizer with both tools switched off, and one whose tools return
    a fixed suggestion and a fixed document. *)
Definition plain_normalizer : TextNormalizer :=
  {| use_symspell := false; use_spacy := false;
     symspell := None; nlp := None |}.

Definition stub_normalizer : TextNormalizer :=
  {| use_symspell := true; use_spacy := true;
     symspell := Some (fun _ => [codes "good app"]);
     nlp := Some (fun _ => [ {| lemma_ := codes "good"; is_stop := false |};
                             {| lemma_ := codes "the"; is_stop := true |};
                             {| lemma_ := codes "app"; is_stop := false |} ]) |}.

(** ** Binary64 facts *)

Lemma Prim2SF_lit_0_05 :
  Prim2SF lit_0_05 = S754_finite false 7205759403792794 (-57).
Proof. reflexivity. Qed.

Lemma Prim2SF_neg_lit_0_05 :
  Prim2SF (- lit_0_05) = S754_finite true 7205759403792794 (-57).
Proof. reflexivity. Qed.

Lemma Prim2SF_half : Prim2SF 0.5 = S754_finite false 4503599627370496 (-53).
Proof. reflexivity. Qed.

(** The literal is the correctly rounded quotient 5/100, and it is the least
    double of its binade that is at least 1/20. *)
Lemma lit_0_05_rounded : (5 / 100)%float = lit_0_05.
Proof. reflexivity. Qed.

Lemma lit_0_05_brackets :
  20 * (7205759403792794 - 1) < 2 ^ 57 < 20 * 7205759403792794.
Proof. lia. Qed.

(** A score at or above the positive threshold is a positive number or
    +infinity. *)
Lemma ge_lit_positive (s : float) :
  ge s lit_0_05 = true ->
  (exists m e, Prim2SF s = S754_finite false m e) \/
  Prim2SF s = S754_infinity false.
Proof.
  unfold ge. rewrite leb_spec, Prim2SF_lit_0_05.
  destruct (Prim2SF s) as [[]|[]| |[] m e]; cbn; try discriminate; eauto.
Qed.

(** The two thresholds exclude each other. *)
Lemma ge_lit_not_le_neg (s : float) :
  ge s lit_0_05 = true -> le s (- lit_0_05) = false.
Proof.
  intros Hs. unfold le. rewrite leb_spec, Prim2SF_neg_lit_0_05.
  destruct (ge_lit_positive s Hs) as [(m & e & ->)| ->]; reflexivity.
Qed.

(** Positive finite doubles are ordered by exponent, then by mantissa. *)
Lemma SFltb_finite_pos (m1 m2 : positive) (e1 e2 : Z) :
  SFltb (S754_finite false m1 e1) (S754_finite false m2 e2) = true <->
  e1 < e2 \/ (e1 = e2 /\ (m1 < m2)%positive).
Proof.
  unfold SFltb, SFcompare. change (PosDef.Pos.compare_cont Eq) with Pos.compare.
  destruct (Z.compare_spec e1 e2); [destruct (Pos.compare_spec m1 m2)|..];
    split; intros; try discriminate; try reflexivity; lia.
Qed.

Lemma SFleb_finite_pos (m1 m2 : positive) (e1 e2 : Z) :
  SFleb (S754_finite false m1 e1) (S754_finite false m2 e2) = true <->
  e1 < e2 \/ (e1 = e2 /\ (m1 <= m2)%positive).
Proof.
  unfold SFleb, SFcompare. change (PosDef.Pos.compare_cont Eq) with Pos.compare.
  destruct (Z.compare_spec e1 e2); [destruct (Pos.compare_spec m1 m2)|..];
    split; intros; try discriminate; try reflexivity; lia.
Qed.

Lemma SFleb_finite_neg (m1 m2 : positive) (e1 e2 : Z) :
  SFleb (S754_finite true m1 e1) (S754_finite true m2 e2) = true <->
  e2 < e1 \/ (e2 = e1 /\ (m2 <= m1)%positive).
Proof.
  unfold SFleb, SFcompare. change (PosDef.Pos.compare_cont Eq) with Pos.compare.
  destruct (Z.compare_spec e1 e2); [destruct (Pos.compare_spec m1 m2)|..];
    split; intros; try discriminate; try reflexivity; lia.
Qed.

(** Above one half is above the positive threshold. *)
Lemma gt_half_ge_lit (s : float) : gt s 0.5 = true -> ge s lit_0_05 = true.
Proof.
  unfold gt, ge. rewrite ltb_spec, leb_spec, Prim2SF_half, Prim2SF_lit_0_05.
  destruct (Prim2SF s) as [[]|[]| |[] m e]; try discriminate; try reflexivity.
  rewrite SFltb_finite_pos, SFleb_finite_pos. lia.
Qed.

(** For such a score, [abs(s - 0) > 0.5] is [s > 0.5]. *)
Lemma gt_abs_sub_zero (s t : float) :
  ge s lit_0_05 = true -> gt (abs (s - 0)) t = gt s t.
Proof.
  intros Hs. unfold gt. rewrite !ltb_spec, abs_spec, sub_spec.
  destruct (ge_lit_positive s Hs) as [(m & e & ->)| ->]; reflexivity.
Qed.

(** *** Comparisons as exact inequalities *)

Lemma digits2_pos_bounds (m : positive) :
  2 ^ (Zpos (digits2_pos m) - 1) <= Zpos m < 2 ^ Zpos (digits2_pos m).
Proof.
  induction m as [m IH|m IH|]; cbn [digits2_pos]; [| |cbn; lia];
    rewrite Pos2Z.inj_succ;
    replace (Z.succ (Zpos (digits2_pos m)) - 1)
      with (Z.succ (Zpos (digits2_pos m) - 1)) by lia;
    rewrite !Z.pow_succ_r by lia;
    revert IH;
    generalize (2 ^ (Zpos (digits2_pos m) - 1)) (2 ^ Zpos (digits2_pos m));
    lia.
Qed.

(** A valid finite double has a mantissa below 2^53, at least 2^52 unless
    the exponent is the least one. *)
Lemma valid_binary_finite (s : bool) (m : positive) (e : Z) :
  valid_binary (S754_finite s m e) = true ->
  -1074 <= e <= 971 /\ Zpos m < 2 ^ 53 /\ (-1074 < e -> 2 ^ 52 <= Zpos m).
Proof.
  cbn [SpecFloat.valid_binary]. unfold bounded, canonical_mantissa, fexp, SpecFloat.emin, emax, prec.
  rewrite andb_true_iff, Z.eqb_eq, Z.leb_le.
  pose proof (digits2_pos_bounds m) as Hd.
  set (d := Zpos (digits2_pos m)) in *.
  intros [Hc He].
  assert (Hd53 : d <= 53) by lia.
  assert (Hpow : 2 ^ d <= 2 ^ 53) by (apply Z.pow_le_mono_r; lia).
  repeat split; try lia.
  intros Hn. assert (d = 53) as Heq by lia. rewrite Heq in Hd. 
  change (53 - 1) with 52 in Hd. lia.
Qed.

(** Doubles below and above a threshold that lies between two neighbouring
    normal doubles [(M-1) * 2^E] and [M * 2^E], all in units of 2^-1074:
    a valid positive double is at least [M * 2^E] exactly when it is at
    least the threshold [T / q]. *)
Lemma lex_threshold (M m : positive) (E e T q : Z) :
  0 < q -> 2 ^ 52 < Zpos M <= 2 ^ 53 -> -1074 <= E ->
  q * ((Zpos M - 1) * 2 ^ (E + 1074)) < T <= q * (Zpos M * 2 ^ (E + 1074)) ->
  -1074 <= e -> Zpos m < 2 ^ 53 -> (-1074 < e -> 2 ^ 52 <= Zpos m) ->
  (E < e \/ (E = e /\ (M <= m)%positive)) <->
  T <= q * (Zpos m * 2 ^ (e + 1074)).
Proof.
  intros Hq HM HE HT He Hm Hnormal.
  assert (HP : 0 < 2 ^ (E + 1074)) by (apply Z.pow_pos_nonneg; lia).
  assert (Hp : 0 < 2 ^ (e + 1074)) by (apply Z.pow_pos_nonneg; lia).
  change (2 ^ 52) with 4503599627370496 in *.
  change (2 ^ 53) with 9007199254740992 in *.
  destruct (Z.lt_trichotomy e E) as [Hlt|[->|Hgt]].
  - (* a lower binade: below (M-1) * 2^E *)
    assert (Hstep : 2 * 2 ^ (e + 1074) <= 2 ^ (E + 1074)).
    { rewrite <- Z.pow_succ_r by lia. apply Z.pow_le_mono_r; lia. }
    clear Hnormal. revert HT Hstep HP Hp.
    generalize (2 ^ (E + 1074)) (2 ^ (e + 1074)).
    intros P p HT Hstep HP Hp. split; [lia|]. intros HTm. exfalso.
    assert (q * (Zpos m * p) <= q * ((Zpos M - 1) * P)); [|lia].
    apply Z.mul_le_mono_nonneg_l; [lia|]. nia.
  - (* the same binade: compare the mantissas *)
    clear Hnormal. revert HT HP. generalize (2 ^ (E + 1074)).
    intros P HT HP. split.
    + intros [?|[_ Hle]]; [lia|].
      assert (q * (Zpos M * P) <= q * (Zpos m * P)); [|lia].
      apply Z.mul_le_mono_nonneg_l; [lia|]. nia.
    + intros HTm. right. split; [done|].
      destruct (Z.le_gt_cases (Zpos M) (Zpos m)) as [|Hgt]; [lia|]. exfalso.
      assert (q * (Zpos m * P) <= q * ((Zpos M - 1) * P)); [|lia].
      apply Z.mul_le_mono_nonneg_l; [lia|]. nia.
  - (* a higher binade: at least 2^53 * 2^E *)
    assert (Hstep : 2 * 2 ^ (E + 1074) <= 2 ^ (e + 1074)).
    { rewrite <- Z.pow_succ_r by lia. apply Z.pow_le_mono_r; lia. }
    specialize (Hnormal ltac:(lia)). revert HT Hstep HP Hp.
    generalize (2 ^ (E + 1074)) (2 ^ (e + 1074)).
    intros P p HT Hstep HP Hp. split; [|lia]. intros _.
    assert (q * (Zpos M * P) <= q * (Zpos m * p)); [|lia].
    apply Z.mul_le_mono_nonneg_l; [lia|]. nia.
Qed.

Lemma Qpower_2_neg_1074 : (2 ^ (-1074))%Q = (1 # 2 ^ 1074)%Q.
Proof. vm_compute. reflexivity. Qed.

Lemma scaled_value (z e : Z) :
  -1074 <= e ->
  (inject_Z z * 2 ^ e == inject_Z (z * 2 ^ (e + 1074)) * 2 ^ (-1074))%Q.
Proof.
  intros He. rewrite inject_Z_mult, Zpower_Qpower by lia.
  replace e with ((e + 1074) + -1074) at 1 by lia.
  rewrite Qpower_plus by discriminate. 
  change (inject_Z 2) with 2%Q. ring.
Qed.

Lemma Qle_scaled (p : Z) (q : positive) (x : Z) :
  (p # q <= inject_Z x * 2 ^ (-1074))%Q <-> p * 2 ^ 1074 <= Zpos q * x.
Proof.
  rewrite Qpower_2_neg_1074. unfold Qle, Qmult, inject_Z. cbn [Qnum Qden].
  rewrite Pos.mul_1_l, Z.mul_1_r, Pos2Z.inj_pow. 
  change (Zpos 2) with 2. change (Zpos 1074) with 1074. lia.
Qed.

Lemma Qlt_scaled (p : Z) (q : positive) (x : Z) :
  (p # q < inject_Z x * 2 ^ (-1074))%Q <-> p * 2 ^ 1074 < Zpos q * x.
Proof.
  rewrite Qpower_2_neg_1074. unfold Qlt, Qmult, inject_Z. cbn [Qnum Qden].
  rewrite Pos.mul_1_l, Z.mul_1_r, Pos2Z.inj_pow. 
  change (Zpos 2) with 2. change (Zpos 1074) with 1074. lia.
Qed.

Lemma Qge_scaled (p : Z) (q : positive) (x : Z) :
  (inject_Z x * 2 ^ (-1074) <= p # q)%Q <-> Zpos q * x <= p * 2 ^ 1074.
Proof.
  rewrite Qpower_2_neg_1074. unfold Qle, Qmult, inject_Z. cbn [Qnum Qden].
  rewrite Pos.mul_1_l, Z.mul_1_r, Pos2Z.inj_pow.
  change (Zpos 2) with 2. change (Zpos 1074) with 1074. lia.
Qed.


Lemma lit_0_05_threshold :
  20 * ((7205759403792794 - 1) * 2 ^ (-57 + 1074)) < 2 ^ 1074
  <= 20 * (7205759403792794 * 2 ^ (-57 + 1074)).
Proof. split; vm_compute; [reflexivity|discriminate]. Qed.

Lemma half_threshold :
  1 * ((4503599627370497 - 1) * 2 ^ (-53 + 1074)) < 2 ^ 1073 + 1
  <= 1 * (4503599627370497 * 2 ^ (-53 + 1074)).
Proof. split; vm_compute; [reflexivity|discriminate]. Qed.

(** A double of negative sign is below every positive rational. *)
Lemma negative_below (m : positive) (e : Z) (q : positive) :
  -1074 <= e -> ~ 1 * 2 ^ 1074 <= Zpos q * (Zneg m * 2 ^ (e + 1074)).
Proof.
  intros He.
  assert (0 < 2 ^ (e + 1074)) by (apply Z.pow_pos_nonneg; lia).
  assert (0 < 2 ^ 1074) by (apply Z.pow_pos_nonneg; lia).
  revert H H0. generalize (2 ^ (e + 1074)) (2 ^ 1074). nia.
Qed.

Lemma ge_lit_exact (s : float) :
  ge s lit_0_05 = true <-> at_least (1 # 20) s.
Proof.
  unfold ge, at_least. rewrite leb_spec, Prim2SF_lit_0_05.
  pose proof (Prim2SF_valid s) as Hv.
  destruct (Prim2SF s) as [sg|sg| |sg m e].
  - cbn. split; [discriminate|intros H; unfold Qle in H; cbn in H; lia].
  - destruct sg; cbn; split; done.
  - done.
  - apply valid_binary_finite in Hv as ([He _] & Hm & Hn). unfold SF2Q.
    rewrite scaled_value, Qle_scaled by done. destruct sg; cbn [cond_Zopp].
    + split; [discriminate|]. intros H. by apply negative_below in H.
    + rewrite SFleb_finite_pos, Z.mul_1_l.
      apply (lex_threshold _ _ _ _ (2 ^ 1074) 20);
        [lia|split; vm_compute; [reflexivity|discriminate]|lia
        |apply lit_0_05_threshold|lia|exact Hm|exact Hn].
Qed.

Lemma le_neg_lit_exact (s : float) :
  le s (- lit_0_05) = true <-> at_most (- (1 # 20)) s.
Proof.
  unfold le, at_most. rewrite leb_spec, Prim2SF_neg_lit_0_05.
  pose proof (Prim2SF_valid s) as Hv.
  destruct (Prim2SF s) as [sg|sg| |sg m e].
  - cbn. split; [discriminate|intros H; unfold Qle in H; cbn in H; lia].
  - destruct sg; cbn; split; done.
  - done.
  - apply valid_binary_finite in Hv as ([He _] & Hm & Hn). unfold SF2Q.
    rewrite scaled_value by done. change (- (1 # 20))%Q with (-1 # 20)%Q.
    rewrite Qge_scaled. destruct sg; cbn [cond_Zopp].
    + rewrite SFleb_finite_neg.
      rewrite (lex_threshold _ m (-57) e (2 ^ 1074) 20);
        [|lia|split; vm_compute; [reflexivity|discriminate]|lia
         |apply lit_0_05_threshold|lia|exact Hm|exact Hn].
      change (Zneg m) with (- Zpos m).
      generalize (2 ^ 1074) (2 ^ (e + 1074)). intros; lia.
    + split; [discriminate|].
      assert (0 < 2 ^ (e + 1074)) by (apply Z.pow_pos_nonneg; lia).
      assert (0 < 2 ^ 1074) by (apply Z.pow_pos_nonneg; lia).
      revert H H0. generalize (2 ^ (e + 1074)) (2 ^ 1074). nia.
Qed.

Lemma gt_half_exact (s : float) : gt s 0.5 = true <-> above (1 # 2) s.
Proof.
  unfold gt, above. rewrite ltb_spec, Prim2SF_half.
  pose proof (Prim2SF_valid s) as Hv.
  destruct (Prim2SF s) as [sg|sg| |sg m e].
  - cbn. split; [discriminate|intros H; unfold Qlt in H; cbn in H; lia].
  - destruct sg; cbn; split; done.
  - done.
  - apply valid_binary_finite in Hv as ([He _] & Hm & Hn). unfold SF2Q.
    rewrite scaled_value, Qlt_scaled by done. destruct sg; cbn [cond_Zopp].
    + split; [discriminate|]. intros H. apply Z.lt_le_incl in H.
      by apply negative_below in H.
    + rewrite SFltb_finite_pos.
      transitivity (-53 < e \/ (-53 = e /\ (4503599627370497 <= m)%positive));
        [lia|].
      rewrite (lex_threshold _ m (-53) e (2 ^ 1073 + 1) 1);
        [|lia|split; vm_compute; [reflexivity|discriminate]|lia
         |apply half_threshold|lia|exact Hm|exact Hn].
      change (2 ^ 1074) with (2 * 2 ^ 1073).
      generalize (2 ^ 1073) (2 ^ (e + 1074)). intros; lia.
Qed.

Lemma float_of_int_numeric (l : string) (z : Z) :
  rule_values !! l = Some z -> float_of_int z = numeric l.
Proof.
  unfold rule_values. intros H.
  apply lookup_insert_Some in H as [[<- <-]|[_ H]]; [reflexivity|].
  apply lookup_insert_Some in H as [[<- <-]|[_ H]]; [reflexivity|].
  apply lookup_singleton_Some in H as [<- <-]. reflexivity.
Qed.

Lemma rule_values_labels (l : string) :
  l ∈ labels <-> is_Some (rule_values !! l).
Proof.
  unfold labels, rule_values. split.
  - intros H. repeat (apply elem_of_cons in H as [-> | H]); try (by eexists).
    by apply elem_of_nil in H.
  - intros [z H].
    apply lookup_insert_Some in H as [[<- _]|[_ H]]; [set_unfold; naive_solver|].
    apply lookup_insert_Some in H as [[<- _]|[_ H]]; [set_unfold; naive_solver|].
    apply lookup_singleton_Some in H as [<- _]. set_unfold; naive_solver.
Qed.

(** ** The rating rule *)

Lemma allowed_labels_table (rating : Z) :
  (3 <= rating -> allowed_labels rating = {[ "positive"; "neutral"; "negative" ]}) /\
  (rating = 2 -> allowed_labels rating = {[ "neutral"; "negative" ]}) /\
  (rating <= 1 -> allowed_labels rating = {[ "negative" ]}).
Proof.
  unfold allowed_labels.
  repeat split; intros; repeat case_bool_decide; reflexivity || lia.
Qed.

Lemma apply_rating_rule_neutral (rating : Z) :
  apply_rating_rule "neutral" rating = "neutral".
Proof. unfold apply_rating_rule. by case_bool_decide. Qed.

Lemma apply_rating_rule_cases (ensemble_label : string) (rating : Z) :
  apply_rating_rule ensemble_label rating = ensemble_label \/
  apply_rating_rule ensemble_label rating = "neutral".
Proof. unfold apply_rating_rule. case_bool_decide; auto. Qed.

(** The rule label of one of the three labels is again one of them, so the
    dict lookup of [flag_disagreement] finds it. *)
Lemma apply_rating_rule_label (ensemble_label : string) (rating : Z) :
  ensemble_label ∈ labels -> apply_rating_rule ensemble_label rating ∈ labels.
Proof.
  intros Hl. destruct (apply_rating_rule_cases ensemble_label rating) as [E|E];
    rewrite E; [done|]. apply (bool_decide_unpack _). reflexivity.
Qed.

Lemma threshold_label_label (s : float) : threshold_label s ∈ labels.
Proof.
  unfold threshold_label, labels.
  destruct (ge s lit_0_05), (le s (- lit_0_05)); set_unfold; naive_solver.
Qed.

(** From rating 2 upwards the rule label of a sentiment label is allowed. *)
Lemma apply_rating_rule_allowed (ensemble_label : string) (rating : Z) :
  ensemble_label ∈ labels -> 2 <= rating ->
  apply_rating_rule ensemble_label rating ∈ allowed_labels rating.
Proof.
  intros Hl Hr. unfold apply_rating_rule. case_bool_decide as Hin; [done|].
  destruct (allowed_labels_table rating) as (H3 & H2 & _).
  destruct (decide (rating = 2)) as [->|]; [rewrite H2 by done|rewrite H3 by lia];
    set_unfold; naive_solver.
Qed.

Lemma apply_rating_rule_2_not_positive (ensemble_label : string) :
  apply_rating_rule ensemble_label 2 ≠ "positive".
Proof.
  unfold apply_rating_rule. case_bool_decide as Hin; [|done].
  intros ->. revert Hin. destruct (allowed_labels_table 2) as (_ & -> & _); [done|].
  set_unfold; naive_solver.
Qed.

(** C3: the rule label is the ensemble label when the rating allows it and
    ["neutral"] otherwise, for the allowed sets of ratings 1 to 5; at rating
    1 a positive or neutral ensemble label gives ["neutral"], which rating 1
    does not allow, and a negative one stays negative. *)
Theorem apply_rating_rule_resolution (ensemble_label : string) (rating : Z) :
  (1 <= rating <= 5) ->
  allowed_labels rating =
    (if bool_decide (3 <= rating) then {[ "positive"; "neutral"; "negative" ]}
     else if bool_decide (rating = 2) then {[ "neutral"; "negative" ]}
     else {[ "negative" ]}) /\
  (ensemble_label ∈ allowed_labels rating ->
   apply_rating_rule ensemble_label rating = ensemble_label) /\
  (ensemble_label ∉ allowed_labels rating ->
   apply_rating_rule ensemble_label rating = "neutral") /\
  apply_rating_rule "positive" 1 = "neutral" /\
  apply_rating_rule "neutral" 1 = "neutral" /\
  ("neutral" ∉ allowed_labels 1) /\
  apply_rating_rule "negative" 1 = "negative".
Proof.
  intros Hr. destruct (allowed_labels_table rating) as (H3 & H2 & H1).
  split; [|split; [|split]].
  - repeat case_bool_decide; [apply H3|apply H2|apply H1]; lia.
  - intros Hin. unfold apply_rating_rule. by rewrite bool_decide_eq_true_2.
  - intros Hin. unfold apply_rating_rule. by rewrite bool_decide_eq_false_2.
  - repeat split; try reflexivity.
    destruct (allowed_labels_table 1) as (_ & _ & H); rewrite H by lia.
    by intros [=]%elem_of_singleton.
Qed.

(** ** The disagreement flag *)

Lemma flag_disagreement_unknown (ens_label rule_label : string)
    (ens_score threshold : float) :
  rule_label ∉ labels ->
  flag_disagreement ens_label rule_label ens_score threshold
  = Raise (KeyError rule_label).
Proof.
  intros H. unfold flag_disagreement, dict_get.
  destruct (rule_values !! rule_label) eqn:E; [|reflexivity].
  exfalso. apply H, rule_values_labels. by eexists.
Qed.

Lemma flag_disagreement_known (ens_label rule_label : string)
    (ens_score threshold : float) :
  rule_label ∈ labels ->
  flag_disagreement ens_label rule_label ens_score threshold
  = Ok (bool_decide (ens_label ≠ rule_label)
        && gt (abs (ens_score - numeric rule_label)) threshold).
Proof.
  intros H. apply rule_values_labels in H as [z Hz].
  unfold flag_disagreement, dict_get. rewrite Hz. cbn.
  by rewrite (float_of_int_numeric _ _ Hz).
Qed.

(** C1: on a rule label among the three sentiment labels, the flag is true
    exactly when the ensemble label differs from the rule label and
    [abs(ens_score - numeric(rule_label))] exceeds the threshold, where
    [numeric] is +1, 0, -1 for positive, neutral, negative; so it is false
    when the two labels are equal.  The default threshold is 0.5. *)
Theorem flag_disagreement_iff (ens_label rule_label : string)
    (ens_score threshold : float) :
  rule_label ∈ labels ->
  default_threshold = 0.5%float /\
  exists fl : bool,
    flag_disagreement ens_label rule_label ens_score threshold = Ok fl /\
    (fl = true <->
     ens_label ≠ rule_label /\
     gt (abs (ens_score - numeric rule_label)) threshold = true) /\
    (ens_label = rule_label -> fl = false).
Proof.
  intros H. split; [reflexivity|].
  eexists. split; [by apply flag_disagreement_known|]. split.
  - rewrite andb_true_iff, bool_decide_eq_true. reflexivity.
  - intros ->. by rewrite bool_decide_eq_false_2 by auto.
Qed.

(** C10: the rule label is the ensemble label or ["neutral"]; a neutral
    ensemble label keeps the rule label neutral at every rating, and then the
    flag is false for every score and threshold, so no record whose label is
    neutral is flagged. *)
Theorem neutral_label_never_flagged `{Builtins} `{SentimentEnsembler} :
  (forall (ensemble_label : string) (rating : Z),
     apply_rating_rule ensemble_label rating = ensemble_label \/
     apply_rating_rule ensemble_label rating = "neutral") /\
  (forall rating : Z, apply_rating_rule "neutral" rating = "neutral") /\
  (forall (rating : Z) (ens_score threshold : float),
     flag_disagreement "neutral" (apply_rating_rule "neutral" rating)
       ens_score threshold = Ok false) /\
  (forall (cols : list string) (text_col : string) (row : list pyval)
          (r : SentimentRecord),
     process_row cols text_col row = Ok r ->
     label (scores r) = "neutral" -> rule_label r = "neutral" /\ flag r = false).
Proof.
  split; [apply apply_rating_rule_cases|].
  split; [apply apply_rating_rule_neutral|].
  assert (Hflag : forall rating s t,
    flag_disagreement "neutral" (apply_rating_rule "neutral" rating) s t
    = Ok false).
  { intros. rewrite apply_rating_rule_neutral.
    rewrite flag_disagreement_known by (unfold labels; set_unfold; naive_solver).
    by rewrite bool_decide_eq_false_2 by auto. }
  split; [exact Hflag|].
  intros cols text_col row r Hrow Hlab. unfold process_row in Hrow.
  destruct (row_get cols row text_col) as [t|]; [cbn in Hrow|discriminate].
  destruct (row_get cols row "rating") as [c|]; [cbn in Hrow|discriminate].
  destruct (py_int c) as [rating|]; [cbn in Hrow|discriminate].
  destruct (flag_disagreement _ _ _ _) as [fl|] eqn:Hfl; [cbn in Hrow|discriminate].
  injection Hrow as <-. cbn in *. rewrite Hlab in *.
  rewrite Hflag in Hfl. injection Hfl as <-.
  by rewrite apply_rating_rule_neutral.
Qed.

(** ** The ensemble record *)

Lemma threshold_label_positive (s : float) :
  threshold_label s = "positive" <-> ge s lit_0_05 = true.
Proof.
  unfold threshold_label.
  destruct (ge s lit_0_05), (le s (- lit_0_05)); split; done.
Qed.

Lemma threshold_label_negative (s : float) :
  threshold_label s = "negative" <-> le s (- lit_0_05) = true.
Proof.
  unfold threshold_label. destruct (ge s lit_0_05) eqn:Hge.
  - rewrite (ge_lit_not_le_neg s Hge). split; done.
  - destruct (le s (- lit_0_05)); split; done.
Qed.

Lemma threshold_label_neutral (s : float) :
  threshold_label s = "neutral" <->
  ge s lit_0_05 = false /\ le s (- lit_0_05) = false.
Proof.
  unfold threshold_label.
  destruct (ge s lit_0_05), (le s (- lit_0_05)); split; (done || by intros []).
Qed.

(** C4: the label of [compute_ensemble] is that of its ensemble score:
    positive exactly when the score is >= 0.05, negative exactly when it is
    <= -0.05, neutral otherwise; both thresholds are inclusive.  The
    comparisons with the doubles of the literals decide the exact
    inequalities with 1/20 and -1/20. *)
Theorem compute_ensemble_label `{SentimentEnsembler} :
  (forall text : string,
     label (compute_ensemble text)
     = threshold_label (ensemble (compute_ensemble text))) /\
  (forall s : float,
     (threshold_label s = "positive" <-> ge s lit_0_05 = true) /\
     (threshold_label s = "negative" <-> le s (- lit_0_05) = true) /\
     (threshold_label s = "neutral" <->
      ge s lit_0_05 = false /\ le s (- lit_0_05) = false)) /\
  (forall s : float,
     (ge s lit_0_05 = true <-> at_least (1 # 20) s) /\
     (le s (- lit_0_05) = true <-> at_most (- (1 # 20)) s)) /\
  threshold_label lit_0_05 = "positive" /\
  threshold_label (- lit_0_05) = "negative".
Proof.
  split; [reflexivity|]. split; [|split; [|split; reflexivity]].
  - intros s. split; [apply threshold_label_positive|].
    split; [apply threshold_label_negative|apply threshold_label_neutral].
  - intros s. split; [apply ge_lit_exact|apply le_neg_lit_exact].
Qed.

(** C5: the ensemble field is the equal-weight mean of the three score
    fields, [(bert + vader + textblob) / 3], and the score fields are the
    outputs of the three scorers. *)
Theorem compute_ensemble_mean `{SentimentEnsembler} (text : string) :
  let r := compute_ensemble text in
  ensemble r = ((bert r + vader r + textblob r) / 3)%float /\
  bert r = _bert_score text /\
  vader r = _vader_score text /\
  textblob r = _textblob_score text.
Proof. repeat split. Qed.

(** In binary64 the sums and the quotient are rounded: three scores of 0.05
    have the ensemble score 0.05000000000000001, one unit in the last place
    above the literal [0.05]; the label is positive all the same. *)
Lemma compute_ensemble_rounding :
  let r := @compute_ensemble (constant_scorers lit_0_05 lit_0_05 lit_0_05) "" in
  ensemble r = next_up lit_0_05 /\ label r = "positive".
Proof. split; reflexivity. Qed.

Lemma population_standard_deviation_3 (b v t : float) :
  population_standard_deviation [b; v; t] =
  (let mean := (b + v + t) / 3 in
   PrimFloat.sqrt (((b - mean) * (b - mean) + (v - mean) * (v - mean)
                    + (t - mean) * (t - mean)) / 3))%float.
Proof. reflexivity. Qed.

(** The double [sqrt(2/3)] is the one nearest to the real square root of
    2/3: with mantissa M at exponent -53, (M - 1/2)^2 < (2/3) * 2^106 <
    (M + 1/2)^2. *)
Lemma sqrt_two_thirds_nearest :
  Prim2SF (PrimFloat.sqrt (2 / 3)) = S754_finite false 7354347395230782 (-53) /\
  3 * (2 * 7354347395230782 - 1) ^ 2 < 2 * 2 ^ 108
  < 3 * (2 * 7354347395230782 + 1) ^ 2.
Proof. split; [reflexivity|lia]. Qed.

(** C6: whatever the three scorers return for the text, say [b], [v] and
    [t], the record holds them in its score fields and its uncertainty
    field is the population standard deviation of [[b; v; t]]: the square
    root of the mean (divisor 3) of the squared deviations from
    [(b + v + t) / 3]; for the outputs 1.0, -1.0 and 0.0 it is sqrt(2/3). *)
Theorem compute_ensemble_uncertainty `{SentimentEnsembler} (text : string)
    (b v t : float) :
  _bert_score text = b -> _vader_score text = v -> _textblob_score text = t ->
  let r := compute_ensemble text in
  (bert r = b /\ vader r = v /\ textblob r = t) /\
  uncertainty r = population_standard_deviation [b; v; t] /\
  uncertainty r =
    (let mean := (b + v + t) / 3 in
     PrimFloat.sqrt (((b - mean) * (b - mean) + (v - mean) * (v - mean)
                      + (t - mean) * (t - mean)) / 3))%float /\
  (b = 1%float -> v = (-1)%float -> t = 0%float ->
   uncertainty r = PrimFloat.sqrt (2 / 3)).
Proof.
  intros Hb Hv Ht r.
  assert (Hu : uncertainty r = population_standard_deviation [b; v; t]).
  { subst r. unfold compute_ensemble. cbn [uncertainty].
    rewrite Hb, Hv, Ht. reflexivity. }
  split; [by subst r|]. split; [exact Hu|].
  split; [rewrite Hu; apply population_standard_deviation_3|].
  intros -> -> ->. rewrite Hu. reflexivity.
Qed.

(** ** The composed flag *)

(** Below the positive threshold is not above one half. *)
Lemma not_ge_lit_not_gt_half (s : float) :
  ge s lit_0_05 = false -> gt s 0.5 = false.
Proof.
  intros Hge. destruct (gt s 0.5) eqn:Hgt; [|reflexivity].
  apply gt_half_ge_lit in Hgt. congruence.
Qed.

Lemma flag_of_score (rating : Z) (ensemble_score : float) :
  (1 <= rating <= 5) ->
  flag_disagreement (threshold_label ensemble_score)
    (apply_rating_rule (threshold_label ensemble_score) rating)
    ensemble_score default_threshold
  = Ok (low_rating_high_score rating ensemble_score).
Proof.
  intros Hr.
  rewrite flag_disagreement_known
    by apply apply_rating_rule_label, threshold_label_label.
  f_equal. unfold low_rating_high_score, default_threshold, threshold_label.
  assert (Hcases : rating = 1 \/ rating = 2 \/ rating = 3 \/ rating = 4
                   \/ rating = 5) by lia.
  destruct (ge ensemble_score lit_0_05) eqn:Hge;
    [|apply not_ge_lit_not_gt_half in Hge;
      destruct (le ensemble_score (- lit_0_05))];
    destruct Hcases as [-> | [-> | [-> | [-> | ->]]]]; eval_labels; cbn;
    try reflexivity; try (by apply gt_abs_sub_zero); symmetry; exact Hge.
Qed.

(** C9: for a rating from 1 to 5, labelling a score, applying the rating
    rule and flagging with the default threshold gives true exactly when the
    rating is 1 or 2 and the score is strictly greater than 0.5 (exactly:
    above 1/2); this is the flag of the record that [run] builds. *)
Theorem composed_flag `{SentimentEnsembler} (rating : Z)
    (ensemble_score : float) :
  (1 <= rating <= 5) ->
  let l := threshold_label ensemble_score in
  flag_disagreement l (apply_rating_rule l rating) ensemble_score
    default_threshold
  = Ok (low_rating_high_score rating ensemble_score) /\
  (low_rating_high_score rating ensemble_score = true <->
   (rating = 1 \/ rating = 2) /\ above (1 # 2) ensemble_score) /\
  (forall text : string,
     flag (reconciled (compute_ensemble text) rating)
     = low_rating_high_score rating (ensemble (compute_ensemble text))).
Proof.
  intros Hr l. split; [by apply flag_of_score|]. split.
  - unfold low_rating_high_score.
    by rewrite andb_true_iff, bool_decide_eq_true, gt_half_exact.
  - intros text.
    pose proof (flag_of_score rating (ensemble (compute_ensemble text)) Hr)
      as Hflag.
    rewrite flag_disagreement_known in Hflag
      by apply apply_rating_rule_label, threshold_label_label.
    by injection Hflag.
Qed.

(** ** The batch runner *)

Lemma row_get_present (cols : list string) (row : list pyval) (c : string) :
  c ∈ cols -> length row = length cols ->
  exists v, row_get cols row c = Ok v.
Proof.
  intros Hc Hlen. unfold row_get.
  destruct (list_find_elem_of (c =.) cols c Hc eq_refl) as [[i x] Hfind].
  rewrite Hfind. apply list_find_Some in Hfind as (Hi & _ & _).
  apply lookup_lt_Some in Hi. rewrite <- Hlen in Hi.
  apply lookup_lt_is_Some_2 in Hi as [v ->]. by exists v.
Qed.

Lemma for_each_Ok {A B : Type} (f : A -> result B) (xs : list A) :
  Forall (fun x => exists y, f x = Ok y) xs ->
  exists ys, for_each f xs = Ok ys /\ Forall2 (fun x y => f x = Ok y) xs ys.
Proof.
  induction 1 as [|x xs [y Hy] _ (ys & Hys & Hall)]; cbn.
  - exists []. by split.
  - exists (y :: ys). rewrite Hy, Hys. cbn. split; [done|by constructor].
Qed.

Lemma for_each_Raise {A B : Type} (f : A -> result B) (xs : list A) (e : exn) :
  for_each f xs = Raise e -> exists x, x ∈ xs /\ f x = Raise e.
Proof.
  induction xs as [|x xs IH]; cbn; [discriminate|].
  destruct (f x) as [y|e'] eqn:Hx; cbn.
  - destruct (for_each f xs) as [ys|e'']; cbn; [discriminate|].
    intros [= ->]. destruct IH as (x' & Hin & Hx'); [done|].
    exists x'. split; [by right|done].
  - intros [= ->]. exists x. split; [by left|done].
Qed.

(** On a row that has both cells the loop body raises only what
    [int(row["rating"])] raises, and otherwise returns the reconciled
    record: the dict lookup of [flag_disagreement] cannot fail. *)
Lemma process_row_cells `{Builtins} `{SentimentEnsembler}
    (cols : list string) (text_col : string) (row : list pyval) (t c : pyval) :
  row_get cols row text_col = Ok t ->
  row_get cols row "rating" = Ok c ->
  process_row cols text_col row =
    (rating ← py_int c; mret (reconciled (compute_ensemble (py_str t)) rating)).
Proof.
  intros Ht Hc. unfold process_row. rewrite Ht. cbn. rewrite Hc. cbn.
  destruct (py_int c) as [rating|e]; [cbn|reflexivity].
  rewrite flag_disagreement_known
    by apply apply_rating_rule_label, threshold_label_label.
  reflexivity.
Qed.

Lemma py_int_not_KeyError `{Builtins} (c : pyval) (e : exn) :
  py_int c = Raise e -> exn_class e ≠ "KeyError".
Proof.
  destruct c as [s|z|f|b|]; cbn; try discriminate.
  - destruct (int_of_str s); intros [= <-]; done.
  - unfold int_of_float. destruct (Prim2SF f); intros [= <-]; done.
  - intros [= <-]; done.
Qed.

Lemma record_items_fields (r : SentimentRecord) :
  (record_items r).*1 = sentiment_fields.
Proof. reflexivity. Qed.

Lemma frame_of_records_columns (records : list SentimentRecord) :
  columns (frame_of_records records)
  = if bool_decide (records = []) then [] else sentiment_fields.
Proof. by destruct records. Qed.

Lemma run_columns_present `{Builtins} `{SentimentEnsembler}
    (df : DataFrame) (text_col : string) :
  text_col ∈ columns df -> "rating" ∈ columns df ->
  run df text_col =
    (records ← for_each (process_row (columns df) text_col) (rows df);
     mret (concat_axis1 df (frame_of_records records))).
Proof.
  intros Ht Hr. unfold run.
  rewrite !bool_decide_eq_false_2 by auto. reflexivity.
Qed.

(** C7: on a frame that has both columns and whose rating cells convert
    with [int], [run] returns a frame with one row per input row, in the
    input order; row i is input row i followed by the values of the record
    computed from it, under the column names bert, vader, textblob,
    ensemble, label, uncertainty, rule_label, flag, in addition to the input
    columns. *)
Theorem run_one_to_one `{Builtins} `{SentimentEnsembler}
    (df : DataFrame) (text_col : string) :
  wf_frame df ->
  text_col ∈ columns df ->
  "rating" ∈ columns df ->
  Forall (fun row => exists c z,
            row_get (columns df) row "rating" = Ok c /\ py_int c = Ok z)
         (rows df) ->
  exists out : DataFrame,
    run df text_col = Ok out /\
    length (rows out) = length (rows df) /\
    columns out
    = columns df ++ (if bool_decide (rows df = []) then [] else sentiment_fields) /\
    forall (i : nat) (row : list pyval),
      rows df !! i = Some row ->
      exists (t c : pyval) (rating : Z),
        row_get (columns df) row text_col = Ok t /\
        row_get (columns df) row "rating" = Ok c /\
        py_int c = Ok rating /\
        let r := reconciled (compute_ensemble (py_str t)) rating in
        process_row (columns df) text_col row = Ok r /\
        (record_items r).*1 = sentiment_fields /\
        rows out !! i = Some (row ++ (record_items r).*2).
Proof.
  intros [_ Hwf] Ht Hr Hint.
  assert (Hrow : forall row, row ∈ rows df ->
            exists (t c : pyval) (rating : Z),
              row_get (columns df) row text_col = Ok t /\
              row_get (columns df) row "rating" = Ok c /\
              py_int c = Ok rating /\
              process_row (columns df) text_col row
              = Ok (reconciled (compute_ensemble (py_str t)) rating)).
  { intros row Hin.
    rewrite Forall_forall in Hwf, Hint.
    destruct (row_get_present _ row _ Ht (Hwf _ Hin)) as [t Hgt].
    destruct (Hint _ Hin) as (c & rating & Hgc & Hpi).
    exists t, c, rating. repeat split; try done.
    rewrite (process_row_cells _ _ _ _ _ Hgt Hgc), Hpi. reflexivity. }
  destruct (for_each_Ok (process_row (columns df) text_col) (rows df))
    as (records & Hrecs & Hall).
  { apply Forall_forall. intros row Hin.
    destruct (Hrow row Hin) as (t & c & rating & _ & _ & _ & Hp). eauto. }
  exists (concat_axis1 df (frame_of_records records)).
  pose proof (Forall2_length _ _ _ Hall) as Hlen.
  split; [by rewrite run_columns_present, Hrecs|].
  split; [cbn; rewrite length_zip_with, length_fmap; lia|].
  split.
  { cbn. f_equal. destruct records, (rows df); try done. }
  intros i row Hi.
  destruct (Hrow row) as (t & c & rating & Hgt & Hgc & Hpi & Hp);
    [by eapply list_elem_of_lookup_2|].
  exists t, c, rating. repeat split; try done.
  destruct (Forall2_lookup_l _ _ _ _ _ Hall Hi) as (r & Hr' & Hpr).
  rewrite Hp in Hpr. injection Hpr as <-.
  cbn. rewrite lookup_zip_with, Hi, list_lookup_fmap, Hr'. reflexivity.
Qed.

(** The column check comes first: without one of the two columns [run]
    raises [KeyError] whatever the rows hold. *)
Lemma run_column_missing `{Builtins} `{SentimentEnsembler}
    (df : DataFrame) (text_col : string) :
  text_col ∉ columns df \/ "rating" ∉ columns df ->
  run df text_col = Raise (KeyError (missing_columns_message text_col)).
Proof.
  intros Hmiss. unfold run.
  destruct (bool_decide (text_col ∉ columns df)) eqn:Ht; [reflexivity|].
  destruct (bool_decide ("rating" ∉ columns df)) eqn:Hr; [reflexivity|].
  apply bool_decide_eq_false in Ht, Hr. tauto.
Qed.

(** With both columns, what [run] raises comes from [int] on a rating
    cell. *)
Lemma run_raises_from_int `{Builtins} `{SentimentEnsembler}
    (df : DataFrame) (text_col : string) (e : exn) :
  wf_frame df -> text_col ∈ columns df -> "rating" ∈ columns df ->
  run df text_col = Raise e ->
  exists (row : list pyval) (c : pyval),
    row ∈ rows df /\
    row_get (columns df) row "rating" = Ok c /\ py_int c = Raise e.
Proof.
  intros [_ Hwf] Ht Hr. rewrite run_columns_present by done.
  destruct (for_each _ _) as [records|e'] eqn:Hfor; [discriminate|].
  intros [= ->]. apply for_each_Raise in Hfor as (row & Hin & Hrow).
  rewrite Forall_forall in Hwf.
  destruct (row_get_present _ row _ Ht (Hwf _ Hin)) as [t Hgt].
  destruct (row_get_present _ row _ Hr (Hwf _ Hin)) as [c Hgc].
  rewrite (process_row_cells _ _ _ _ _ Hgt Hgc) in Hrow.
  exists row, c. repeat split; try done.
  destruct (py_int c); cbn in Hrow; [discriminate|congruence].
Qed.

(** C8, as the code has it: when the text column or the rating column is
    absent, [run] raises the built-in [KeyError] for the whole batch, before
    any row is looked at; when both columns are present it raises no
    [KeyError]. *)
Theorem run_required_columns `{Builtins} `{SentimentEnsembler}
    (df : DataFrame) (text_col : string) :
  wf_frame df ->
  (text_col ∉ columns df \/ "rating" ∉ columns df ->
   run df text_col = Raise (KeyError (missing_columns_message text_col)) /\
   forall rows' : list (list pyval),
     run {| columns := columns df; rows := rows' |} text_col
     = run df text_col) /\
  (text_col ∈ columns df -> "rating" ∈ columns df ->
   forall e : exn, run df text_col = Raise e -> exn_class e ≠ "KeyError").
Proof.
  intros Hwf. split.
  - intros Hmiss. split; [by apply run_column_missing|].
    intros rows'. by rewrite !run_column_missing.
  - intros Ht Hr e Hrun.
    destruct (run_raises_from_int df text_col e) as (row & c & _ & _ & Hc);
      try done.
    by eapply py_int_not_KeyError.
Qed.

(** A row whose text cell is missing is scored on the text of the missing
    value, and a row whose rating cell is NaN stops the batch with
    [ValueError]: no row is set aside. *)
Lemma run_missing_cells :
  let S := constant_scorers 1 1 1 in
  @process_row plain_builtins S ["normalized_review"; "rating"]
    "normalized_review" [PyNone; PyInt 5]
  = Ok (reconciled (@compute_ensemble S "None") 5) /\
  @run plain_builtins S
    {| columns := ["normalized_review"; "rating"];
       rows := [ [PyStr "good app"; PyFloat nan];
                 [PyStr "crash on login"; PyInt 5] ] |}
    "normalized_review"
  = Raise ValueError.
Proof. split; reflexivity. Qed.

(** ** Evaluations on the sample inputs *)

(** C2: at rating 1 the rule label leaves the allowed set.  With three
    scores of 1.0 the ensemble label is positive, rating 1 allows only
    negative, and the record gets the rule label ["neutral"]; the rule label
    of a neutral ensemble label is ["neutral"] as well. *)
Theorem rule_label_outside_allowed :
  let S := constant_scorers 1 1 1 in
  exists r : SentimentRecord,
    @process_row plain_builtins S (columns sample_reviews) "normalized_review"
      [PyStr "CBE"; PyStr "good app"; PyInt 1] = Ok r /\
    label (scores r) = "positive" /\
    rule_label r = "neutral" /\
    allowed_labels 1 = {[ "negative" ]} /\
    (rule_label r ∉ allowed_labels 1) /\
    apply_rating_rule "neutral" 1 ∉ allowed_labels 1.
Proof.
  eexists. split; [reflexivity|]. cbn.
  destruct (allowed_labels_table 1) as (_ & _ & H). rewrite H by lia.
  rewrite apply_rating_rule_neutral.
  repeat split; try reflexivity; by intros [=]%elem_of_singleton.
Qed.

(** C8, as stated, fails: without the rating column [run] raises [KeyError],
    not a validation error, and returns no frame at all. *)
Lemma run_unrated_raises_KeyError :
  let res := @run plain_builtins (constant_scorers 1 1 1) unrated_reviews
               "normalized_review" in
  ("rating" ∉ columns unrated_reviews) /\
  res = Raise (KeyError
                 "Required columns missing: 'normalized_review' and/or 'rating'") /\
  ~ (exists e : exn, res = Raise e /\ exn_class e = "ValidationError").
Proof.
  cbv zeta. split; [|split].
  - unfold unrated_reviews. cbn. rewrite !elem_of_cons, elem_of_nil.
    intros [[=]|[[=]|[]]].
  - reflexivity.
  - intros (e & He & Hc). vm_compute in He.
    injection He as <-. discriminate Hc.
Qed.

Lemma sample_reviews_wf : wf_frame sample_reviews.
Proof.
  split; cbn.
  - apply (bool_decide_unpack _). reflexivity.
  - repeat constructor.
Defined.

Lemma unrated_reviews_wf : wf_frame unrated_reviews.
Proof.
  split; cbn.
  - apply (bool_decide_unpack _). reflexivity.
  - repeat constructor.
Defined.

Lemma flag_disagreement_iff_witness :
  "neutral" ∈ labels /\
  exists fl : bool,
    flag_disagreement "positive" "neutral" 1 default_threshold = Ok fl /\
    (fl = true <->
     "positive" ≠ "neutral" /\
     gt (abs (1 - numeric "neutral")) default_threshold = true) /\
    ("positive" = "neutral" -> fl = false).
Proof.
  assert (H : "neutral" ∈ labels) by (apply (bool_decide_unpack _); reflexivity).
  split; [exact H|].
  exact (proj2 (flag_disagreement_iff "positive" "neutral" 1 default_threshold H)).
Defined.

Lemma apply_rating_rule_resolution_witness :
  (1 <= 1 <= 5) /\
  allowed_labels 1 = {[ "negative" ]} /\
  apply_rating_rule "positive" 1 = "neutral".
Proof.
  assert (H : 1 <= 1 <= 5) by lia.
  destruct (apply_rating_rule_resolution "positive" 1 H)
    as (Htable & _ & _ & Hpos & _).
  split; [exact H|]. split; [exact Htable|exact Hpos].
Defined.

Lemma compute_ensemble_uncertainty_witness :
  let S := constant_scorers 1 (-1) 0 in
  @_bert_score S "good app" = 1%float /\
  @_vader_score S "good app" = (-1)%float /\
  @_textblob_score S "good app" = 0%float /\
  uncertainty (@compute_ensemble S "good app")
  = population_standard_deviation [1; -1; 0]%float /\
  uncertainty (@compute_ensemble S "good app") = PrimFloat.sqrt (2 / 3) /\
  PrimFloat.sqrt (2 / 3) = 0x1.a20bd700c2c3ep-1%float.
Proof.
  cbv zeta. do 3 (split; [reflexivity|]).
  destruct (@compute_ensemble_uncertainty (constant_scorers 1 (-1) 0)
              "good app" 1 (-1) 0 eq_refl eq_refl eq_refl)
    as (_ & Hstd & _ & Hsqrt).
  split; [exact Hstd|]. split; [|reflexivity].
  exact (Hsqrt eq_refl eq_refl eq_refl).
Defined.

Lemma neutral_label_never_flagged_witness :
  let S := constant_scorers 1 (-1) 0 in
  let row := [PyStr "CBE"; PyStr "good app"; PyInt 1] in
  exists r : SentimentRecord,
    @process_row plain_builtins S (columns sample_reviews) "normalized_review"
      row = Ok r /\
    label (scores r) = "neutral" /\ rule_label r = "neutral" /\ flag r = false.
Proof.
  cbv zeta. eexists. split; [reflexivity|]. split; [reflexivity|].
  exact (proj2 (proj2 (proj2 (@neutral_label_never_flagged plain_builtins
                                (constant_scorers 1 (-1) 0))))
           (columns sample_reviews) "normalized_review"
           [PyStr "CBE"; PyStr "good app"; PyInt 1] _ eq_refl eq_refl).
Defined.

Lemma run_one_to_one_witness :
  let B := plain_builtins in
  let S := constant_scorers 1 1 1 in
  wf_frame sample_reviews /\
  ("normalized_review" ∈ columns sample_reviews) /\
  ("rating" ∈ columns sample_reviews) /\
  exists out : DataFrame,
    @run B S sample_reviews "normalized_review" = Ok out /\
    length (rows out) = 2%nat /\
    columns out = columns sample_reviews ++ sentiment_fields.
Proof.
  cbv zeta.
  assert (Ht : "normalized_review" ∈ columns sample_reviews)
    by (apply (bool_decide_unpack _); reflexivity).
  assert (Hr : "rating" ∈ columns sample_reviews)
    by (apply (bool_decide_unpack _); reflexivity).
  assert (Hint : Forall (fun row => exists c z,
            row_get (columns sample_reviews) row "rating" = Ok c /\
            @py_int plain_builtins c = Ok z) (rows sample_reviews)).
  { repeat constructor; eexists _, _; split; reflexivity. }
  destruct (@run_one_to_one plain_builtins (constant_scorers 1 1 1)
              sample_reviews "normalized_review" sample_reviews_wf Ht Hr Hint)
    as (out & Hrun & Hlen & Hcols & _).
  split; [exact sample_reviews_wf|]. split; [exact Ht|]. split; [exact Hr|].
  exists out. split; [exact Hrun|]. split; [exact Hlen|exact Hcols].
Defined.

Lemma run_required_columns_witness :
  let B := plain_builtins in
  let S := constant_scorers 1 1 1 in
  wf_frame unrated_reviews /\
  ("rating" ∉ columns unrated_reviews) /\
  @run B S unrated_reviews "normalized_review"
  = Raise (KeyError (missing_columns_message "normalized_review")).
Proof.
  cbv zeta.
  assert (Hr : "rating" ∉ columns unrated_reviews)
    by (apply (bool_decide_unpack _); reflexivity).
  split; [exact unrated_reviews_wf|]. split; [exact Hr|].
  exact (proj1 (proj1 (@run_required_columns plain_builtins
                         (constant_scorers 1 1 1) unrated_reviews
                         "normalized_review" unrated_reviews_wf)
                  (or_intror Hr))).
Defined.

Lemma composed_flag_witness :
  (1 <= 1 <= 5) /\
  flag_disagreement (threshold_label 1) (apply_rating_rule (threshold_label 1) 1)
    1 default_threshold = Ok true /\
  (1 <= 5 <= 5) /\
  flag_disagreement (threshold_label 1) (apply_rating_rule (threshold_label 1) 5)
    1 default_threshold = Ok false.
Proof.
  assert (H1 : 1 <= 1 <= 5) by lia. assert (H5 : 1 <= 5 <= 5) by lia.
  split; [|split; [|split]].
  - exact H1.
  - exact (proj1 (@composed_flag (constant_scorers 1 1 1) 1 1 H1)).
  - exact H5.
  - exact (proj1 (@composed_flag (constant_scorers 1 1 1) 5 1 H5)).
Defined.

(** * Further properties of the ensembler *)

(** ** The rating rule on every string and every integer rating *)

Lemma allowed_labels_clamp (rating : Z) :
  allowed_labels rating = allowed_labels (Z.max 1 (Z.min 5 rating)).
Proof.
  destruct (allowed_labels_table rating) as (H3 & H2 & H1).
  destruct (allowed_labels_table (Z.max 1 (Z.min 5 rating))) as (H3' & H2' & H1').
  destruct (decide (3 <= rating)); [rewrite H3, H3' by lia; done|].
  destruct (decide (rating = 2)); [rewrite H2, H2' by lia; done|].
  rewrite H1, H1' by lia. done.
Qed.

Lemma apply_rating_rule_outcome (l : string) (rating : Z) :
  apply_rating_rule l rating = rule_outcome l rating.
Proof.
  unfold apply_rating_rule, rule_outcome.
  destruct (allowed_labels_table rating) as (H3 & H2 & H1).
  destruct (decide (3 <= rating)) as [Hge|Hlt]; [rewrite H3 by done|].
  { clear H3 H2 H1. case_bool_decide as Hin; revert Hin; label_cases. }
  destruct (decide (rating = 2)) as [->|Hne];
    [rewrite H2 by done|rewrite H1 by lia]; clear H3 H2 H1;
    case_bool_decide as Hin; revert Hin; label_cases.
Qed.

(** X1: on every string and every integer rating (no range check is made)
    the rule keeps "negative", keeps "positive" from rating 3 upwards, and
    returns "neutral" in every other case; so it changes its argument
    exactly when that is "positive" with a rating of 2 or less, or is not a
    sentiment label at all, and it never turns another label into
    "negative" or "positive". *)
Theorem apply_rating_rule_all_ratings (l : string) (rating : Z) :
  apply_rating_rule l rating = rule_outcome l rating /\
  (apply_rating_rule l rating ≠ l <->
   (l = "positive" /\ rating <= 2) \/ l ∉ labels) /\
  (apply_rating_rule l rating = "negative" -> l = "negative") /\
  (apply_rating_rule l rating = "positive" -> l = "positive" /\ 3 <= rating).
Proof.
  rewrite apply_rating_rule_outcome. unfold rule_outcome.
  split; [done|]. destruct (decide (l = "positive")) as [->|Hp]; label_cases.
Qed.

(** X2: the rule label is one of the three sentiment labels whatever the
    input string and rating; applying the rule twice is applying it once;
    and a label that the rule keeps at some rating is kept at every higher
    rating. *)
Theorem apply_rating_rule_invariants (l : string) (rating rating' : Z) :
  (apply_rating_rule l rating ∈ labels) /\
  apply_rating_rule (apply_rating_rule l rating) rating
  = apply_rating_rule l rating /\
  (rating <= rating' -> apply_rating_rule l rating = l ->
   apply_rating_rule l rating' = l).
Proof.
  rewrite !apply_rating_rule_outcome. unfold rule_outcome. label_cases.
Qed.

(** ** The flag outside its normal inputs *)

(** X3: the dict lookup of [flag_disagreement] comes before the comparison
    of the labels, so a rule label outside positive/neutral/negative raises
    [KeyError] with that label, also when both labels are the same string;
    the function returns a flag exactly for the three labels, whatever the
    ensemble label is. *)
Theorem flag_disagreement_KeyError (ens_label rule_label : string)
    (ens_score threshold : float) :
  (rule_label ∉ labels ->
   flag_disagreement ens_label rule_label ens_score threshold
   = Raise (KeyError rule_label)) /\
  flag_disagreement rule_label rule_label ens_score threshold
  = (if bool_decide (rule_label ∈ labels) then Ok false
     else Raise (KeyError rule_label)) /\
  ((exists fl : bool,
      flag_disagreement ens_label rule_label ens_score threshold = Ok fl)
   <-> rule_label ∈ labels).
Proof.
  split; [apply flag_disagreement_unknown|]. split.
  - case_bool_decide as Hl.
    + rewrite flag_disagreement_known by done.
      by rewrite bool_decide_eq_false_2 by auto.
    + by apply flag_disagreement_unknown.
  - split.
    + intros [fl Hfl]. destruct (decide (rule_label ∈ labels)) as [|Hn]; [done|].
      by rewrite flag_disagreement_unknown in Hfl.
    + intros Hl. eexists. by apply flag_disagreement_known.
Qed.

Lemma process_row_Ok `{Builtins} `{SentimentEnsembler}
    (cols : list string) (text_col : string) (row : list pyval)
    (r : SentimentRecord) :
  process_row cols text_col row = Ok r ->
  exists (t c : pyval) (rating : Z),
    row_get cols row text_col = Ok t /\
    row_get cols row "rating" = Ok c /\
    py_int c = Ok rating /\
    r = reconciled (compute_ensemble (py_str t)) rating.
Proof.
  intros Hrow.
  destruct (row_get cols row text_col) as [t|] eqn:Ht;
    [|unfold process_row in Hrow; by rewrite Ht in Hrow].
  destruct (row_get cols row "rating") as [c|] eqn:Hc;
    [|unfold process_row in Hrow; rewrite Ht in Hrow; cbn in Hrow;
      by rewrite Hc in Hrow].
  rewrite (process_row_cells _ _ _ _ _ Ht Hc) in Hrow.
  destruct (py_int c) as [rating|] eqn:Hi; [|discriminate].
  injection Hrow as <-. by exists t, c, rating.
Qed.

Lemma flag_of_score_any_rating (rating : Z) (ensemble_score : float) :
  flag_disagreement (threshold_label ensemble_score)
    (apply_rating_rule (threshold_label ensemble_score) rating)
    ensemble_score default_threshold
  = Ok (bool_decide (rating <= 2) && gt ensemble_score 0.5).
Proof.
  unfold apply_rating_rule. rewrite allowed_labels_clamp.
  fold (apply_rating_rule (threshold_label ensemble_score)
          (Z.max 1 (Z.min 5 rating))).
  rewrite flag_of_score by lia. unfold low_rating_high_score.
  do 2 f_equal. apply bool_decide_ext. lia.
Qed.

(** X4: the flag for every integer rating, in or out of 1..5: true exactly
    when the rating is at most 2 and the score is above 0.5.  So every
    record that [run] flags has the ensemble label "positive", the rule
    label "neutral", a score above 1/2 and a rating of at most 2; a record
    with a negative or neutral label, or a rating of 3 or more, is never
    flagged. *)
Theorem flagged_records `{Builtins} `{SentimentEnsembler} :
  (forall (rating : Z) (s : float),
     flag_disagreement (threshold_label s)
       (apply_rating_rule (threshold_label s) rating) s default_threshold
     = Ok (bool_decide (rating <= 2) && gt s 0.5)) /\
  (forall (cols : list string) (text_col : string) (row : list pyval)
          (r : SentimentRecord),
     process_row cols text_col row = Ok r -> flag r = true ->
     label (scores r) = "positive" /\
     rule_label r = "neutral" /\
     above (1 # 2) (ensemble (scores r)) /\
     exists (c : pyval) (rating : Z),
       row_get cols row "rating" = Ok c /\ py_int c = Ok rating /\
       rating <= 2).
Proof.
  split; [apply flag_of_score_any_rating|].
  intros cols text_col row r Hrow Hflag.
  apply process_row_Ok in Hrow as (t & c & rating & _ & Hc & Hi & ->).
  set (rec := compute_ensemble (py_str t)) in *.
  pose proof (flag_of_score_any_rating rating (ensemble rec)) as Hfl.
  rewrite flag_disagreement_known in Hfl
    by apply apply_rating_rule_label, threshold_label_label.
  injection Hfl as Hfl.
  change (flag (reconciled rec rating)
          = bool_decide (rating <= 2) && gt (ensemble rec) 0.5) in Hfl.
  rewrite Hflag in Hfl. symmetry in Hfl.
  apply andb_true_iff in Hfl as [Hr%bool_decide_eq_true Hgt].
  assert (Hpos : label rec = "positive")
    by (apply threshold_label_positive; by apply gt_half_ge_lit).
  split; [done|]. split.
  - change (apply_rating_rule (label rec) rating = "neutral").
    rewrite Hpos, apply_rating_rule_outcome. unfold rule_outcome.
    label_cases.
  - split; [by apply gt_half_exact|]. by exists c, rating.
Qed.

(** ** Scores that are not numbers *)

Lemma is_nan_spec (x : float) : is_nan x = true <-> Prim2SF x = S754_nan.
Proof.
  unfold is_nan. rewrite negb_true_iff, FloatAxioms.eqb_spec.
  unfold SFeqb, SFcompare.
  destruct (Prim2SF x) as [[]|[]| |[] m e]; try (split; done);
    rewrite Z.compare_refl; change (PosDef.Pos.compare_cont Eq) with Pos.compare;
    rewrite Pos.compare_refl; split; done.
Qed.

Lemma nan_sum_div (b v t d : float) :
  is_nan b = true \/ is_nan v = true \/ is_nan t = true ->
  is_nan ((b + v + t) / d) = true.
Proof.
  rewrite !is_nan_spec, div_spec, !add_spec.
  intros [-> | [-> | ->]]; [done| |].
  - by destruct (Prim2SF b).
  - by destruct (SF64add (Prim2SF b) (Prim2SF v)).
Qed.

Lemma threshold_label_nan (s : float) :
  is_nan s = true -> threshold_label s = "neutral".
Proof.
  rewrite is_nan_spec. intros Hs. apply threshold_label_neutral.
  unfold ge, le. by rewrite !leb_spec, Hs, Prim2SF_lit_0_05.
Qed.

(** X5: a scorer that returns NaN (the softmax of [_bert_score] does on
    overflowing logits) is not detected: the ensemble score is NaN, the
    label is "neutral", and at every rating the rule label is "neutral" and
    the record is not flagged. *)
Theorem nan_score_is_neutral `{SentimentEnsembler} (text : string) :
  is_nan (_bert_score text) = true \/ is_nan (_vader_score text) = true
  \/ is_nan (_textblob_score text) = true ->
  let r := compute_ensemble text in
  is_nan (ensemble r) = true /\
  label r = "neutral" /\
  forall rating : Z,
    rule_label (reconciled r rating) = "neutral" /\
    flag (reconciled r rating) = false.
Proof.
  intros Hnan r.
  assert (He : is_nan (ensemble r) = true) by by apply nan_sum_div.
  assert (Hl : label r = "neutral") by by apply threshold_label_nan.
  split; [done|]. split; [done|]. intros rating.
  unfold reconciled. cbn [rule_label flag]. rewrite Hl.
  rewrite apply_rating_rule_neutral. split; [done|].
  by rewrite bool_decide_eq_false_2 by auto.
Qed.

(** ** Symmetry and monotonicity of the label *)

Lemma ge_opp_lit (s : float) : ge (- s) lit_0_05 = le s (- lit_0_05).
Proof.
  unfold ge, le. rewrite !leb_spec, opp_spec.
  rewrite Prim2SF_lit_0_05, Prim2SF_neg_lit_0_05.
  destruct (Prim2SF s) as [[]|[]| |[] m e]; try reflexivity.
  apply eq_true_iff_eq. cbn [SFopp negb].
  rewrite SFleb_finite_pos, SFleb_finite_neg. reflexivity.
Qed.

Lemma le_opp_neg_lit (s : float) : le (- s) (- lit_0_05) = ge s lit_0_05.
Proof.
  unfold ge, le. rewrite !leb_spec, opp_spec.
  rewrite Prim2SF_lit_0_05, Prim2SF_neg_lit_0_05.
  destruct (Prim2SF s) as [[]|[]| |[] m e]; try reflexivity.
  apply eq_true_iff_eq. cbn [SFopp negb].
  rewrite SFleb_finite_pos, SFleb_finite_neg. reflexivity.
Qed.

(** X9: the two thresholds mirror each other: the label of the opposite
    score is the opposite label, for every double (NaN, infinities and both
    zeros included). *)
Theorem threshold_label_opp (s : float) :
  threshold_label (- s) = mirror_label (threshold_label s).
Proof.
  unfold threshold_label. rewrite ge_opp_lit, le_opp_neg_lit.
  destruct (ge s lit_0_05) eqn:Hge.
  - by rewrite (ge_lit_not_le_neg s Hge).
  - by destruct (le s (- lit_0_05)).
Qed.

Lemma ge_lit_upward (s1 s2 : float) :
  le s1 s2 = true -> ge s1 lit_0_05 = true -> ge s2 lit_0_05 = true.
Proof.
  unfold ge, le. rewrite !leb_spec, Prim2SF_lit_0_05.
  destruct (Prim2SF s1) as [[]|[]| |[] m1 e1]; try discriminate;
    destruct (Prim2SF s2) as [[]|[]| |[] m2 e2]; try discriminate;
    try reflexivity.
  rewrite !SFleb_finite_pos. lia.
Qed.

Lemma le_neg_lit_downward (s1 s2 : float) :
  le s1 s2 = true -> le s2 (- lit_0_05) = true -> le s1 (- lit_0_05) = true.
Proof.
  unfold le. rewrite !leb_spec, Prim2SF_neg_lit_0_05.
  destruct (Prim2SF s2) as [[]|[]| |[] m2 e2]; try discriminate;
    destruct (Prim2SF s1) as [[]|[]| |[] m1 e1]; try discriminate;
    try reflexivity.
  rewrite !SFleb_finite_neg. lia.
Qed.

(** X10: the label never decreases when the score increases: for doubles
    [s1 <= s2], the label of [s1] is at most the label of [s2] in the order
    negative < neutral < positive. *)
Theorem threshold_label_monotone (s1 s2 : float) :
  le s1 s2 = true ->
  label_rank (threshold_label s1) <= label_rank (threshold_label s2).
Proof.
  intros Hle. unfold threshold_label.
  destruct (ge s1 lit_0_05) eqn:H1.
  { by rewrite (ge_lit_upward s1 s2 Hle H1). }
  destruct (ge s2 lit_0_05) eqn:H2.
  { by destruct (le s1 (- lit_0_05)). }
  destruct (le s2 (- lit_0_05)) eqn:H2'.
  { by rewrite (le_neg_lit_downward s1 s2 Hle H2'). }
  by destruct (le s1 (- lit_0_05)).
Qed.

(** * Further properties of the batch runner *)

Lemma for_each_app {A B : Type} (f : A -> result B) (xs ys : list A) :
  for_each f (xs ++ ys)
  = (l ← for_each f xs; k ← for_each f ys; mret (l ++ k)).
Proof.
  induction xs as [|x xs IH]; cbn.
  - by destruct (for_each f ys).
  - destruct (f x) as [y|e]; cbn; [|done]. rewrite IH.
    destruct (for_each f xs) as [l|e]; cbn; [|done].
    by destruct (for_each f ys).
Qed.

(** X6: the rows are converted in order and the first rating cell that
    [int] rejects ends the run with the exception of that cell: however
    many rows before it were scored, [run] returns no frame. *)
Theorem run_first_failure `{Builtins} `{SentimentEnsembler}
    (df : DataFrame) (text_col : string)
    (pre post : list (list pyval)) (row : list pyval) (c : pyval) (e : exn) :
  wf_frame df ->
  text_col ∈ columns df ->
  "rating" ∈ columns df ->
  rows df = pre ++ row :: post ->
  Forall (fun row' => exists c' z,
            row_get (columns df) row' "rating" = Ok c' /\ py_int c' = Ok z)
         pre ->
  row_get (columns df) row "rating" = Ok c ->
  py_int c = Raise e ->
  run df text_col = Raise e.
Proof.
  intros [_ Hwf] Ht Hr Hrows Hpre Hc He.
  rewrite run_columns_present by done. rewrite Hrows in *.
  apply Forall_app in Hwf as [Hwfpre Hwfrow].
  apply Forall_cons in Hwfrow as [Hlen _].
  rewrite for_each_app.
  destruct (for_each_Ok (process_row (columns df) text_col) pre) as (l & -> & _).
  { rewrite Forall_forall in Hpre, Hwfpre. apply Forall_forall. intros r Hin.
    destruct (row_get_present _ r _ Ht (Hwfpre _ Hin)) as [t Hgt].
    destruct (Hpre _ Hin) as (c' & z & Hgc & Hpi).
    rewrite (process_row_cells _ _ _ _ _ Hgt Hgc), Hpi. by eexists. }
  cbn. destruct (row_get_present _ row _ Ht Hlen) as [t Hgt].
  rewrite (process_row_cells _ _ _ _ _ Hgt Hc), He. reflexivity.
Qed.

Lemma for_each_Ok_inv {A B : Type} (f : A -> result B) (xs : list A)
    (ys : list B) :
  for_each f xs = Ok ys -> Forall2 (fun x y => f x = Ok y) xs ys.
Proof.
  revert ys. induction xs as [|x xs IH]; cbn; intros ys.
  - intros [= <-]. constructor.
  - destruct (f x) as [y|] eqn:Hx; cbn; [|discriminate].
    destruct (for_each f xs) as [l|]; cbn; [|discriminate].
    intros [= <-]. constructor; [done|by apply IH].
Qed.

Lemma run_Ok `{Builtins} `{SentimentEnsembler}
    (df out : DataFrame) (text_col : string) :
  run df text_col = Ok out ->
  text_col ∈ columns df /\ "rating" ∈ columns df /\
  exists records : list SentimentRecord,
    Forall2 (fun row r => process_row (columns df) text_col row = Ok r)
      (rows df) records /\
    out = concat_axis1 df (frame_of_records records).
Proof.
  intros Hrun.
  destruct (decide (text_col ∈ columns df)) as [Ht|Ht];
    [|rewrite run_column_missing in Hrun by auto; discriminate].
  destruct (decide ("rating" ∈ columns df)) as [Hr|Hr];
    [|rewrite run_column_missing in Hrun by auto; discriminate].
  rewrite run_columns_present in Hrun by done.
  destruct (for_each _ _) as [records|] eqn:Hfor; [|discriminate].
  injection Hrun as <-. repeat split; try done.
  exists records. split; [by apply for_each_Ok_inv|done].
Qed.

(** X7: when [run] returns, the output has as many rows as the input, and
    the eight sentiment columns are appended exactly when the input has at
    least one row: on a frame without rows the output is the input frame,
    with no sentiment column. *)
Theorem run_columns_rows `{Builtins} `{SentimentEnsembler}
    (df out : DataFrame) (text_col : string) :
  wf_frame df ->
  run df text_col = Ok out ->
  length (rows out) = length (rows df) /\
  (rows df = [] -> out = df) /\
  (rows df ≠ [] -> columns out = columns df ++ sentiment_fields).
Proof.
  intros _ (_ & _ & records & Hall & ->)%run_Ok.
  pose proof (Forall2_length _ _ _ Hall) as Hlen.
  split; [cbn; rewrite length_zip_with, length_fmap; lia|]. split.
  - intros Hnil. rewrite Hnil in *. destruct records; [|done].
    destruct df as [cols rws]. cbn in *. subst rws.
    unfold concat_axis1. cbn. by rewrite app_nil_r.
  - intros Hne. destruct records as [|r records]; [|done].
    destruct (rows df); done.
Qed.

Lemma row_get_app_l (cols cols' : list string) (row vals : list pyval)
    (c : string) :
  c ∈ cols -> length row = length cols ->
  row_get (cols ++ cols') (row ++ vals) c = row_get cols row c.
Proof.
  intros Hc Hlen. unfold row_get.
  destruct (list_find_elem_of (c =.) cols c Hc eq_refl) as [[i x] Hfind].
  rewrite Hfind, (list_find_app_l _ _ _ _ _ Hfind).
  apply list_find_Some in Hfind as (Hi%lookup_lt_Some & _).
  by rewrite lookup_app_l by lia.
Qed.

Lemma row_get_app_r (cols cols' : list string) (row vals : list pyval)
    (c : string) :
  c ∉ cols -> length row = length cols ->
  row_get (cols ++ cols') (row ++ vals) c = row_get cols' vals c.
Proof.
  intros Hc Hlen. unfold row_get.
  assert (Hnone : list_find (c =.) cols = None).
  { apply list_find_None, Forall_forall. by intros x Hx <-. }
  rewrite list_find_app_r by done.
  destruct (list_find (c =.) cols') as [[i x]|]; cbn; [|done].
  rewrite <- Hlen, lookup_app_r by lia. by rewrite Nat.add_sub.
Qed.

Lemma record_items_row_get (r : SentimentRecord) (k : string) (v : pyval) :
  (k, v) ∈ record_items r ->
  row_get sentiment_fields (record_items r).*2 k = Ok v.
Proof.
  unfold record_items. rewrite !elem_of_cons, elem_of_nil.
  intros [[= -> ->]|[[= -> ->]|[[= -> ->]|[[= -> ->]|[[= -> ->]|[[= -> ->]
          |[[= -> ->]|[[= -> ->]|[]]]]]]]]]; reflexivity.
Qed.

Lemma sentiment_fields_NoDup : NoDup sentiment_fields.
Proof. apply (bool_decide_unpack _). reflexivity. Qed.

(** X8: when no input column bears the name of a sentiment field, the
    output of [run] has distinct column labels and full rows, every input
    cell is read back from the output row under its column, and every field
    of the row's record is read back under its name. *)
Theorem run_read_back `{Builtins} `{SentimentEnsembler}
    (df out : DataFrame) (text_col : string) :
  wf_frame df ->
  (forall field : string, field ∈ sentiment_fields -> field ∉ columns df) ->
  run df text_col = Ok out ->
  wf_frame out /\
  forall (i : nat) (row : list pyval),
    rows df !! i = Some row ->
    exists (out_row : list pyval) (r : SentimentRecord),
      rows out !! i = Some out_row /\
      process_row (columns df) text_col row = Ok r /\
      (forall c : string,
         c ∈ columns df ->
         row_get (columns out) out_row c = row_get (columns df) row c) /\
      (forall (k : string) (v : pyval),
         (k, v) ∈ record_items r ->
         row_get (columns out) out_row k = Ok v).
Proof.
  intros [Hnd Hwf] Hfresh (_ & _ & records & Hall & ->)%run_Ok.
  assert (Hcols : forall r, r ∈ records ->
            columns (frame_of_records records) = sentiment_fields).
  { intros r Hin. destruct records; [by apply elem_of_nil in Hin|done]. }
  split; [split|].
  - cbn. apply NoDup_app. split; [done|]. split.
    + intros c Hc Hin. destruct records as [|r records]; cbn in Hin;
        [by apply elem_of_nil in Hin|]. by apply (Hfresh c).
    + destruct records; cbn; [constructor|apply sentiment_fields_NoDup].
  - apply Forall_lookup. intros i out_row Hi. cbn in Hi.
    apply lookup_zip_with_Some in Hi as (row & vals & -> & Hrow & Hvals).
    apply list_lookup_fmap_Some in Hvals as (r & -> & Hr).
    cbn [columns concat_axis1].
    rewrite (Hcols r) by by eapply list_elem_of_lookup_2.
    rewrite !length_app. f_equal.
    by eapply (Forall_lookup_1 _ _ _ _ Hwf).
  - intros i row Hi.
    destruct (Forall2_lookup_l _ _ _ _ _ Hall Hi) as (r & Hr & Hpr).
    exists (row ++ (record_items r).*2), r.
    assert (Hlen : length row = length (columns df))
      by by eapply (Forall_lookup_1 _ _ _ _ Hwf).
    split.
    { change (rows (concat_axis1 df (frame_of_records records)))
        with (zip_with app (rows df)
                ((fun r => (record_items r).*2) <$> records)).
      by rewrite lookup_zip_with, Hi, list_lookup_fmap, Hr. }
    split; [done|]. cbn [columns concat_axis1]. rewrite (Hcols r) by by eapply list_elem_of_lookup_2.
    split.
    + intros c Hc. by apply row_get_app_l.
    + intros k v Hkv. rewrite row_get_app_r; [by apply record_items_row_get| |done].
      apply Hfresh. change sentiment_fields with (record_items r).*1.
      apply list_elem_of_fmap. by exists (k, v).
Qed.

Lemma for_each_Forall2 {A B : Type} (f : A -> result B) (xs : list A)
    (ys : list B) :
  Forall2 (fun x y => f x = Ok y) xs ys -> for_each f xs = Ok ys.
Proof.
  induction 1 as [|x y xs ys Hx _ IH]; cbn; [done|]. by rewrite Hx, IH.
Qed.

Lemma process_row_app `{Builtins} `{SentimentEnsembler}
    (cols cols' : list string) (text_col : string) (row vals : list pyval) :
  text_col ∈ cols -> "rating" ∈ cols -> length row = length cols ->
  process_row (cols ++ cols') text_col (row ++ vals)
  = process_row cols text_col row.
Proof.
  intros Ht Hr Hlen. unfold process_row.
  by rewrite !row_get_app_l by done.
Qed.

(** X11: [run] does not recognise its own output: applied to the frame it
    returned (for an input with at least one row and no column named like a
    sentiment field), it succeeds again, computes the same
    records from the same text and rating cells, and appends the eight
    sentiment columns a second time, so the column labels are no longer
    distinct. *)
Theorem run_twice `{Builtins} `{SentimentEnsembler}
    (df out : DataFrame) (text_col : string) :
  wf_frame df ->
  (forall field : string, field ∈ sentiment_fields -> field ∉ columns df) ->
  rows df ≠ [] ->
  run df text_col = Ok out ->
  exists records : list SentimentRecord,
    out = concat_axis1 df (frame_of_records records) /\
    run out text_col = Ok (concat_axis1 out (frame_of_records records)) /\
    columns (concat_axis1 out (frame_of_records records))
    = columns df ++ sentiment_fields ++ sentiment_fields /\
    ~ NoDup (columns (concat_axis1 out (frame_of_records records))).
Proof.
  intros [_ Hwf] _ Hne (Ht & Hr & records & Hall & ->)%run_Ok.
  exists records. split; [done|].
  assert (Hcols : columns (frame_of_records records) = sentiment_fields).
  { destruct records; [|done]. apply Forall2_nil_inv_r in Hall. done. }
  split; [|split].
  - rewrite run_columns_present by (cbn; rewrite elem_of_app; auto).
    rewrite (for_each_Forall2 _ _ records); [done|].
    cbn [rows columns concat_axis1 frame_of_records].
    apply Forall2_same_length_lookup. split.
    { rewrite length_zip_with, length_fmap.
      pose proof (Forall2_length _ _ _ Hall). lia. }
    intros i out_row r Hi Hr'.
    apply lookup_zip_with_Some in Hi as (row & vals & -> & Hrow & _).
    rewrite process_row_app; try done.
    + exact (Forall2_lookup_lr _ _ _ _ _ _ Hall Hrow Hr').
    + by eapply (Forall_lookup_1 _ _ _ _ Hwf).
  - cbn [columns concat_axis1]. by rewrite Hcols, <- app_assoc.
  - cbn [columns concat_axis1]. rewrite Hcols, <- app_assoc. intros Hnd.
    apply NoDup_app in Hnd as (_ & _ & Hnd).
    apply NoDup_app in Hnd as (_ & Hdisj & _).
    apply (Hdisj "flag"); apply (bool_decide_unpack _); reflexivity.
Qed.

(** ** The further properties on the sample inputs *)

Lemma sample_reviews_fresh (field : string) :
  field ∈ sentiment_fields -> field ∉ columns sample_reviews.
Proof.
  intros Hin Hc. cbn in Hc.
  repeat (apply elem_of_cons in Hc as [-> | Hc]);
    try (by apply elem_of_nil in Hc);
    revert Hin; apply (bool_decide_unpack _); reflexivity.
Defined.

Lemma broken_reviews_wf : wf_frame broken_reviews.
Proof.
  split; cbn.
  - apply (bool_decide_unpack _). reflexivity.
  - repeat constructor.
Defined.

Lemma flagged_records_witness :
  let row := [PyStr "CBE"; PyStr "good app"; PyInt 1] in
  exists r : SentimentRecord,
    @process_row plain_builtins (constant_scorers 1 1 1)
      (columns sample_reviews) "normalized_review" row = Ok r /\
    flag r = true /\ label (scores r) = "positive" /\ rule_label r = "neutral".
Proof.
  cbv zeta. eexists. split; [reflexivity|]. split; [reflexivity|].
  pose proof (proj2 (@flagged_records plain_builtins (constant_scorers 1 1 1))
                (columns sample_reviews) "normalized_review"
                [PyStr "CBE"; PyStr "good app"; PyInt 1] _ eq_refl eq_refl)
    as (Hl & Hr & _).
  split; [exact Hl|exact Hr].
Defined.

Lemma nan_score_is_neutral_witness :
  let S := constant_scorers nan 1 1 in
  is_nan (@_bert_score S "good app") = true /\
  label (@compute_ensemble S "good app") = "neutral" /\
  flag (reconciled (@compute_ensemble S "good app") 1) = false.
Proof.
  cbv zeta.
  assert (Hnan : is_nan (@_bert_score (constant_scorers nan 1 1) "good app")
                 = true) by reflexivity.
  destruct (@nan_score_is_neutral (constant_scorers nan 1 1) "good app"
              (or_introl Hnan)) as (_ & Hl & Hf).
  split; [exact Hnan|]. split; [exact Hl|exact (proj2 (Hf 1))].
Defined.

Lemma threshold_label_monotone_witness :
  le 0 1 = true /\
  label_rank (threshold_label 0) <= label_rank (threshold_label 1).
Proof.
  assert (H : le 0 1 = true) by reflexivity.
  split; [exact H|exact (threshold_label_monotone 0 1 H)].
Defined.

Lemma run_first_failure_witness :
  wf_frame broken_reviews /\
  @run plain_builtins (constant_scorers 1 1 1) broken_reviews
    "normalized_review" = Raise ValueError.
Proof.
  split; [exact broken_reviews_wf|].
  apply (@run_first_failure plain_builtins (constant_scorers 1 1 1)
           broken_reviews "normalized_review"
           [[PyStr "CBE"; PyStr "good app"; PyInt 4]]
           [[PyStr "Dashen"; PyStr "slow"; PyStr "five"]]
           [PyStr "BOA"; PyStr "crash on login"; PyFloat nan]
           (PyFloat nan) ValueError broken_reviews_wf).
  - apply (bool_decide_unpack _). reflexivity.
  - apply (bool_decide_unpack _). reflexivity.
  - reflexivity.
  - repeat constructor. eexists _, _. split; reflexivity.
  - reflexivity.
  - reflexivity.
Defined.

Lemma sample_reviews_run :
  exists out : DataFrame,
    @run plain_builtins (constant_scorers 1 1 1) sample_reviews
      "normalized_review" = Ok out.
Proof. eexists. reflexivity. Defined.

Lemma run_columns_rows_witness :
  exists out : DataFrame,
    @run plain_builtins (constant_scorers 1 1 1) sample_reviews
      "normalized_review" = Ok out /\
    length (rows out) = length (rows sample_reviews) /\
    columns out = columns sample_reviews ++ sentiment_fields.
Proof.
  destruct sample_reviews_run as [out Hrun]. exists out.
  destruct (@run_columns_rows plain_builtins (constant_scorers 1 1 1)
              sample_reviews out "normalized_review" sample_reviews_wf Hrun)
    as (Hlen & _ & Hcols).
  split; [exact Hrun|]. split; [exact Hlen|]. apply Hcols. discriminate.
Defined.

Lemma run_read_back_witness :
  exists out : DataFrame,
    @run plain_builtins (constant_scorers 1 1 1) sample_reviews
      "normalized_review" = Ok out /\
    wf_frame out.
Proof.
  destruct sample_reviews_run as [out Hrun]. exists out.
  split; [exact Hrun|].
  exact (proj1 (@run_read_back plain_builtins (constant_scorers 1 1 1)
                  sample_reviews out "normalized_review" sample_reviews_wf
                  sample_reviews_fresh Hrun)).
Defined.

Lemma run_twice_witness :
  exists out out2 : DataFrame,
    @run plain_builtins (constant_scorers 1 1 1) sample_reviews
      "normalized_review" = Ok out /\
    @run plain_builtins (constant_scorers 1 1 1) out "normalized_review"
    = Ok out2 /\
    columns out2 = columns sample_reviews ++ sentiment_fields ++ sentiment_fields.
Proof.
  destruct sample_reviews_run as [out Hrun].
  destruct (@run_twice plain_builtins (constant_scorers 1 1 1)
              sample_reviews out "normalized_review" sample_reviews_wf
              sample_reviews_fresh ltac:(discriminate) Hrun)
    as (records & _ & Hrun2 & Hcols & _).
  exists out, (concat_axis1 out (frame_of_records records)).
  split; [exact Hrun|]. split; [exact Hrun2|exact Hcols].
Defined.

(** * Theme tagging *)

Lemma prefix_spec (kw text : string) :
  String.prefix kw text = true <-> exists b : string, text = kw +:+ b.
Proof.
  revert kw. induction text as [|c text IH]; intros [|k kw]; cbn.
  - split; [by exists ""|done].
  - split; [done|]. by intros [b [=]].
  - split; [by eexists|done].
  - destruct (Ascii.ascii_dec k c) as [->|Hne].
    + rewrite IH. split; intros [b Hb]; exists b; [by rewrite Hb|].
      by injection Hb.
    + split; [done|]. intros [b [= ? ?]]. done.
Qed.

Lemma contains_spec (kw text : string) :
  contains kw text = true <-> occurs kw text.
Proof.
  unfold occurs. induction text as [|c text IH].
  - change (contains kw "") with (String.prefix kw "" || false).
    rewrite orb_false_r, prefix_spec. split.
    + intros [b Hb]. by exists "", b.
    + intros (a & b & Hab). destruct a; [by exists b|done].
  - change (contains kw (String c text))
      with (String.prefix kw (String c text) || contains kw text).
    rewrite orb_true_iff, prefix_spec, IH. split.
    + intros [[b Hb]|(a & b & Hab)]; [by exists "", b|].
      exists (String c a), b. cbn. by rewrite Hab.
    + intros (a & b & Hab). destruct a as [|c' a]; [left; by exists b|].
      right. exists a, b. cbn in Hab. by injection Hab.
Qed.

Lemma any_keyword_spec (keywords : list string) (text_low : string) :
  any_keyword keywords text_low = true <->
  exists kw : string, kw ∈ keywords /\ occurs kw text_low.
Proof.
  unfold any_keyword. rewrite existsb_exists.
  split; intros (kw & Hin & Hc); exists kw;
    [rewrite list_elem_of_In, <- contains_spec|
     rewrite <- list_elem_of_In, contains_spec]; done.
Qed.

Lemma matched_themes_spec (bank_seeds : list (string * list string))
    (text_low theme : string) :
  theme ∈ matched_themes bank_seeds text_low <->
  exists (keywords : list string) (kw : string),
    (theme, keywords) ∈ bank_seeds /\ kw ∈ keywords /\ occurs kw text_low.
Proof.
  induction bank_seeds as [|[t kws] rest IH]; cbn.
  - split; [by intros ?%elem_of_nil|]. by intros (? & ? & ?%elem_of_nil & _).
  - destruct (any_keyword kws text_low) eqn:Hany.
    + rewrite elem_of_cons, IH. split.
      * intros [->|(keywords & kw & Hin & Hkw)].
        -- apply any_keyword_spec in Hany as (kw & Hkw & Hocc).
           exists kws, kw. split; [by left|done].
        -- exists keywords, kw. split; [by right|done].
      * intros (keywords & kw & [[= -> ->]|Hin]%elem_of_cons & Hkw);
          [by left|]. right. by exists keywords, kw.
    + rewrite IH. split.
      * intros (keywords & kw & Hin & Hkw). exists keywords, kw.
        split; [by right|done].
      * intros (keywords & kw & [[= -> ->]|Hin]%elem_of_cons & Hkw & Hocc).
        -- assert (any_keyword kws text_low = true)
             by (apply any_keyword_spec; by exists kw).
           congruence.
        -- by exists keywords, kw.
Qed.

Lemma matched_themes_sublist (bank_seeds : list (string * list string))
    (text_low : string) :
  matched_themes bank_seeds text_low `sublist_of` bank_seeds.*1.
Proof.
  induction bank_seeds as [|[t kws] rest IH]; cbn; [done|].
  destruct (any_keyword kws text_low); [by apply sublist_skip|by apply sublist_cons].
Qed.

Lemma string_app_assoc (a b c : string) : (a +:+ b) +:+ c = a +:+ b +:+ c.
Proof.
  induction a as [|x a IH]; [reflexivity|exact (f_equal (String x) IH)].
Qed.

Lemma occurs_trans (kw text1 text2 : string) :
  occurs kw text1 -> occurs text1 text2 -> occurs kw text2.
Proof.
  intros (a & b & ->) (a' & b' & ->). exists (a' +:+ a), (b +:+ b').
  by rewrite !string_app_assoc.
Qed.

Lemma occurs_empty (text : string) : occurs "" text.
Proof. by exists "", text. Qed.

Lemma tag_review_matched `{StrMethods}
    (seed_map : gmap string (list (string * list string)))
    (text bank : string) :
  let matched :=
    matched_themes (default [] (seed_map !! bank)) (str_lower text) in
  tag_review seed_map text bank
  = (if bool_decide (matched = []) then ["Other"] else matched).
Proof. unfold tag_review. by destruct (matched_themes _ _). Qed.

(** X12: [tag_review] never returns an empty list.  When some theme of the
    bank's seed dict has a keyword that occurs in the lowered text as a
    substring (inside a longer word too; the empty keyword always does),
    the result holds exactly the themes that have one, in the order of the
    dict, each once when the dict's themes are distinct.  When no theme has
    one, the result is ["Other"]; this is so for every text when the bank is
    not a key of the seed map.  Provided that no theme of the dict is itself
    named "Other", the result is ["Other"], and "Other" is in the result,
    exactly when no theme matches. *)
Theorem tag_review_themes `{StrMethods}
    (seed_map : gmap string (list (string * list string)))
    (text bank : string) :
  let bank_seeds := default [] (seed_map !! bank) in
  let tagged (theme : string) : Prop :=
    exists (keywords : list string) (kw : string),
      (theme, keywords) ∈ bank_seeds /\ kw ∈ keywords /\
      occurs kw (str_lower text) in
  let result := tag_review seed_map text bank in
  result ≠ [] /\
  ((exists t : string, tagged t) ->
   (forall theme : string, theme ∈ result <-> tagged theme) /\
   result `sublist_of` bank_seeds.*1 /\
   (NoDup bank_seeds.*1 -> NoDup result)) /\
  ((forall t : string, ~ tagged t) -> result = ["Other"]) /\
  ("Other" ∉ bank_seeds.*1 ->
   (result = ["Other"] <-> forall t : string, ~ tagged t) /\
   ("Other" ∈ result <-> forall t : string, ~ tagged t)) /\
  (seed_map !! bank = None -> result = ["Other"]) /\
  (forall (theme : string) (keywords : list string),
     (theme, keywords) ∈ bank_seeds -> "" ∈ keywords -> theme ∈ result).
Proof.
  intros bank_seeds tagged result.
  pose proof (matched_themes_spec bank_seeds (str_lower text)) as Hspec.
  pose proof (matched_themes_sublist bank_seeds (str_lower text)) as Hsub.
  subst result. rewrite tag_review_matched. fold bank_seeds.
  set (matched := matched_themes bank_seeds (str_lower text)) in *.
  assert (Hnone : matched = [] <-> forall t, ~ tagged t).
  { split.
    - intros Hnil t Ht%Hspec. rewrite Hnil in Ht. by apply elem_of_nil in Ht.
    - intros Hno. destruct matched as [|t l] eqn:E; [done|].
      destruct (Hno t). apply Hspec. by left. }
  assert (Hsome : (exists t, tagged t) -> bool_decide (matched = []) = false).
  { intros [t Ht]. apply bool_decide_eq_false_2. intros Hm.
    by destruct (proj1 Hnone Hm t). }
  assert (Hfall : (forall t, ~ tagged t) ->
                  (if bool_decide (matched = []) then ["Other"] else matched)
                  = ["Other"]).
  { intros Hno. by rewrite (bool_decide_eq_true_2 _ (proj2 Hnone Hno)). }
  split; [by case_bool_decide; [|destruct matched]|].
  split; [|split; [exact Hfall|split; [|split]]].
  - intros Hex. rewrite (Hsome Hex). split; [exact Hspec|].
    split; [exact Hsub|]. intros Hnd. by eapply sublist_NoDup.
  - intros Hother.
    assert (Hno_other : ~ tagged "Other").
    { intros (keywords & kw & Hin & _). apply Hother.
      apply list_elem_of_fmap. by exists ("Other", keywords). }
    split; (split; [|by intros Hno; rewrite (Hfall Hno); try left]).
    + case_bool_decide as Hm; [intros _; exact (proj1 Hnone Hm)|].
      intros Heq. destruct Hno_other. apply Hspec. rewrite Heq. by left.
    + case_bool_decide as Hm; [intros _; exact (proj1 Hnone Hm)|].
      intros Hin. destruct Hno_other. by apply Hspec.
  - intros Hb. subst matched bank_seeds. by rewrite Hb.
  - intros theme keywords Hin Hkw.
    assert (Ht : theme ∈ matched).
    { apply Hspec. exists keywords, "". split; [done|].
      split; [done|apply occurs_empty]. }
    case_bool_decide as Hm; [|done]. rewrite Hm in Ht.
    by apply elem_of_nil in Ht.
Qed.

(** X13: tagging is monotone in the text: when the lowered first text
    occurs in the lowered second one, every theme tagged for the first text
    is tagged for the second, unless the first text matched no theme and
    got "Other". *)
Theorem tag_review_monotone `{StrMethods}
    (seed_map : gmap string (list (string * list string)))
    (text1 text2 bank theme : string) :
  occurs (str_lower text1) (str_lower text2) ->
  theme ∈ tag_review seed_map text1 bank ->
  theme ∈ tag_review seed_map text2 bank \/
  (theme = "Other" /\ tag_review seed_map text1 bank = ["Other"]).
Proof.
  intros Hocc. rewrite !tag_review_matched.
  set (seeds := default [] (seed_map !! bank)).
  case_bool_decide as H1.
  - intros ->%list_elem_of_singleton. by right.
  - intros (keywords & kw & Hin & Hkw & Hkw1)%matched_themes_spec. left.
    assert (Ht : theme ∈ matched_themes seeds (str_lower text2)).
    { apply matched_themes_spec. exists keywords, kw.
      split; [done|]. split; [done|by eapply occurs_trans]. }
    case_bool_decide as H2; [|done]. rewrite H2 in Ht.
    by apply elem_of_nil in Ht.
Qed.

(** * Text normalisation *)

(** What the substitutions leave: characters of the basic class and
    whitespace, then characters of the basic class and single spaces. *)
Lemma sub_other_chars (l : list N) :
  Forall (fun c => is_basic c = true \/ isspace c = true) (sub_other l).
Proof.
  unfold sub_other. apply Forall_fmap, Forall_forall. intros c _. cbn.
  destruct (is_basic c) eqn:Hb; cbn; [by left|].
  destruct (isspace c) eqn:Hs; [by right|]. right. reflexivity.
Qed.

Lemma sub_spaces_chars (after_space : bool) (l : list N) :
  Forall (fun c => is_basic c = true \/ isspace c = true) l ->
  Forall (fun c => is_basic c = true \/ c = 32%N) (sub_spaces after_space l).
Proof.
  intros Hl. revert after_space.
  induction Hl as [|c l Hc _ IH]; intros after_space; cbn; [constructor|].
  destruct (isspace c) eqn:Hs.
  - destruct after_space; [apply IH|]. constructor; [by right|apply IH].
  - constructor; [|apply IH]. destruct Hc; [by left|congruence].
Qed.

Lemma is_basic_not_space (c : N) : is_basic c = true -> isspace c = false.
Proof.
  unfold is_basic, isspace. intros H.
  repeat (apply orb_true_iff in H as [H|H]);
    repeat (apply andb_true_iff in H as [? ?]);
    repeat match goal with
      | H : (_ <=? _)%N = true |- _ => apply N.leb_le in H
      | H : (_ =? _)%N = true |- _ => apply N.eqb_eq in H
      end;
    repeat (apply orb_false_iff; split);
    try (apply andb_false_iff);
    rewrite ?N.leb_gt, ?N.eqb_neq; lia.
Qed.

Lemma sub_spaces_single (after_space : bool) (l : list N) :
  (after_space = true -> head (sub_spaces after_space l) <> Some 32%N) /\
  single_spaced (sub_spaces after_space l).
Proof.
  revert after_space. induction l as [|c l IH]; intros st; cbn.
  - split; [done|]. intros i Hi. by rewrite lookup_nil in Hi.
  - destruct (isspace c) eqn:Hs.
    + destruct st; [apply IH|]. split; [done|].
      intros [|i] Hi Hn.
      * change (sub_spaces true l !! 0%nat = Some 32%N) in Hn.
        rewrite <- head_lookup in Hn. by apply (proj1 (IH true)).
      * by apply (proj2 (IH true) i).
    + assert (Hc : c <> 32%N) by (intros ->; vm_compute in Hs; discriminate).
      split; [cbn; congruence|].
      intros [|i] Hi Hn; [cbn in Hi; congruence|].
      by apply (proj2 (IH false) i).
Qed.

Lemma single_spaced_infix (a m b : list N) :
  single_spaced (a ++ m ++ b) -> single_spaced m.
Proof.
  intros H i Hi Hn. apply (H (length a + i)%nat).
  - rewrite lookup_app_r by lia.
    replace (length a + i - length a)%nat with i by lia.
    by apply lookup_app_l_Some.
  - replace (S (length a + i)) with (length a + S i)%nat by lia.
    rewrite lookup_app_r by lia.
    replace (length a + S i - length a)%nat with (S i) by lia.
    by apply lookup_app_l_Some.
Qed.

Lemma lower_basic_space (c : N) : lower_basic c = 32%N <-> c = 32%N.
Proof.
  unfold lower_basic.
  destruct (65 <=? c)%N eqn:H1; cbn; [|done].
  destruct (c <=? 90)%N eqn:H2; cbn; [|done].
  apply N.leb_le in H1. lia.
Qed.

Lemma lower_basic_clean (c : N) :
  is_basic c = true \/ c = 32%N -> is_clean (lower_basic c) = true.
Proof.
  intros [H| ->]; [|reflexivity].
  unfold is_basic in H. unfold lower_basic, is_clean.
  destruct (65 <=? c)%N eqn:H1, (c <=? 90)%N eqn:H2; cbn in *;
    rewrite ?N.leb_le, ?N.leb_gt in H1, H2.
  - replace (97 <=? c + 32)%N with true by (symmetry; apply N.leb_le; lia).
    replace (c + 32 <=? 122)%N with true by (symmetry; apply N.leb_le; lia).
    reflexivity.
  - rewrite H. reflexivity.
  - rewrite H. reflexivity.
  - rewrite H. reflexivity.
Qed.

Lemma single_spaced_lower (l : list N) :
  single_spaced l -> single_spaced (lower_basic <$> l).
Proof.
  intros H i Hi Hn.
  apply list_lookup_fmap_Some in Hi as (c & Hc & Hi).
  apply list_lookup_fmap_Some in Hn as (d & Hd & Hn).
  symmetry in Hc, Hd.
  apply (proj1 (lower_basic_space c)) in Hc.
  apply (proj1 (lower_basic_space d)) in Hd. subst.
  by apply (H i).
Qed.

(** [lstrip] and [strip] drop whitespace only, and all of it at the ends. *)
Lemma lstrip_spec (l : list N) :
  exists a, l = a ++ lstrip l /\ Forall (fun c => isspace c = true) a.
Proof.
  induction l as [|c l (a & Heq & Ha)]; cbn; [by exists []|].
  destruct (isspace c) eqn:Hs; [|by exists []].
  exists (c :: a). split; [cbn; congruence|by constructor].
Qed.

Lemma lstrip_head (l : list N) (c : N) :
  head (lstrip l) = Some c -> isspace c = false.
Proof.
  induction l as [|d l IH]; cbn; [done|].
  destruct (isspace d) eqn:Hs; [done|]. cbn. by intros [= <-].
Qed.

Lemma lstrip_strip (l : list N) :
  exists b, lstrip l = strip l ++ b /\ Forall (fun c => isspace c = true) b.
Proof.
  destruct (lstrip_spec (rev (lstrip l))) as (b & Hb & Hsb).
  exists (rev b). split; [|by apply List.Forall_rev].
  apply (f_equal (@rev N)) in Hb.
  rewrite rev_involutive, rev_app_distr in Hb. exact Hb.
Qed.

Lemma strip_spec (l : list N) :
  exists a b, l = a ++ strip l ++ b /\
    Forall (fun c => isspace c = true) a /\
    Forall (fun c => isspace c = true) b.
Proof.
  destruct (lstrip_spec l) as (a & Ha & Hsa).
  destruct (lstrip_strip l) as (b & Hb & Hsb).
  exists a, b. split; [congruence|done].
Qed.

Lemma strip_head (l : list N) (c : N) :
  head (strip l) = Some c -> isspace c = false.
Proof.
  destruct (lstrip_strip l) as (b & Hb & _). intros Hc.
  apply (lstrip_head l). rewrite Hb.
  destruct (strip l); [done|exact Hc].
Qed.

Lemma strip_last (l : list N) (c : N) :
  last (strip l) = Some c -> isspace c = false.
Proof.
  unfold strip. destruct (lstrip (rev (lstrip l))) as [|d x] eqn:Hx; [done|].
  cbn [rev]. rewrite last_snoc. intros [= <-].
  apply (lstrip_head (rev (lstrip l))). by rewrite Hx.
Qed.

Lemma lstrip_whitespace (l : list N) :
  Forall (fun c => isspace c = true) l -> lstrip l = [].
Proof. induction 1 as [|c l Hc _ IH]; cbn; [done|]. by rewrite Hc. Qed.

Lemma strip_nil (l : list N) :
  strip l = [] <-> Forall (fun c => isspace c = true) l.
Proof.
  split.
  - intros H. destruct (strip_spec l) as (a & b & Heq & Ha & Hb).
    rewrite Heq, H. by apply Forall_app.
  - intros H. unfold strip. by rewrite (lstrip_whitespace l H).
Qed.

(** X14 (_basic_clean, src/nlp/text_normalizer.py): whatever the text,
    the cleaned text is written in the alphabet a-z, 0-9, [.,!?'] and the
    space, neither starts nor ends with a space, and has no two spaces in
    a row. *)
Theorem _basic_clean_shape (text : list N) :
  let out := _basic_clean text in
  Forall (fun c => is_clean c = true) out /\
  head out <> Some 32%N /\
  last out <> Some 32%N /\
  single_spaced out.
Proof.
  intros out. unfold out, _basic_clean. cbv zeta.
  set (l3 := sub_spaces false (sub_other (sub_urls false text))).
  assert (H3 : Forall (fun c => is_basic c = true \/ c = 32%N) l3)
    by apply sub_spaces_chars, sub_other_chars.
  assert (Hs3 : single_spaced l3) by apply sub_spaces_single.
  destruct (strip_spec l3) as (a & b & Heq & _ & _).
  assert (H4 : Forall (fun c => is_basic c = true \/ c = 32%N) (strip l3)).
  { rewrite Heq in H3. apply Forall_app in H3 as [_ H3].
    by apply Forall_app in H3 as [H3 _]. }
  split; [|split; [|split]].
  - apply Forall_fmap. eapply Forall_impl; [exact H4|].
    intros c Hc. by apply lower_basic_clean.
  - intros Hh. pose proof (strip_head l3) as Hsp.
    destruct (strip l3) as [|c l4]; [done|]. cbn in Hh.
    injection Hh as Hh. apply lower_basic_space in Hh as ->.
    by specialize (Hsp 32%N eq_refl).
  - rewrite fmap_last. intros Hl. pose proof (strip_last l3) as Hsp.
    destruct (last (strip l3)) as [c|]; [|done]. cbn in Hl.
    injection Hl as Hl. apply lower_basic_space in Hl as ->.
    by specialize (Hsp 32%N eq_refl).
  - apply single_spaced_lower, (single_spaced_infix a _ b).
    by rewrite <- Heq.
Qed.

(** Text without a character of the basic class is cleaned to nothing. *)
Lemma sub_urls_chars (P : N -> Prop) (in_match : bool) (l : list N) :
  P 32%N -> Forall P l -> Forall P (sub_urls in_match l).
Proof.
  intros H32 Hl. revert in_match.
  induction Hl as [|c l Hc Hl IH]; intros st; [constructor|].
  cbn [sub_urls]. destruct st.
  - destruct (isspace c); [constructor|]; auto.
  - destruct (url_at (c :: l)); constructor; auto.
Qed.

Lemma sub_other_whitespace (l : list N) :
  Forall (fun c => is_basic c = false) l ->
  Forall (fun c => isspace c = true) (sub_other l).
Proof.
  intros Hl. unfold sub_other. apply Forall_fmap.
  eapply Forall_impl; [exact Hl|]. intros c Hc. cbn. rewrite Hc. cbn.
  by destruct (isspace c) eqn:Hs.
Qed.

Lemma sub_spaces_whitespace (after_space : bool) (l : list N) :
  Forall (fun c => isspace c = true) l ->
  Forall (fun c => isspace c = true) (sub_spaces after_space l).
Proof.
  intros Hl. revert after_space.
  induction Hl as [|c l Hc _ IH]; intros st; cbn; [constructor|].
  rewrite Hc. destruct st; [apply IH|]. constructor; [done|apply IH].
Qed.

Lemma _basic_clean_no_basic (text : list N) :
  Forall (fun c => is_basic c = false) text -> _basic_clean text = [].
Proof.
  intros Ht. unfold _basic_clean. cbv zeta.
  replace (strip _) with (@nil N); [done|]. symmetry.
  apply strip_nil, sub_spaces_whitespace, sub_other_whitespace.
  by apply sub_urls_chars.
Qed.

Lemma whitespace_not_basic (l : list N) :
  Forall (fun c => isspace c = true) l ->
  Forall (fun c => is_basic c = false) l.
Proof.
  intros Hl. eapply Forall_impl; [exact Hl|]. intros c Hc. cbn beta.
  destruct (is_basic c) eqn:Hb; [|done].
  apply is_basic_not_space in Hb. congruence.
Qed.

Lemma normalize_nil (self : TextNormalizer) (text : list N) :
  _basic_clean text = [] -> normalize self text = [].
Proof.
  intros H. unfold normalize. case_bool_decide; [done|]. cbv zeta.
  rewrite H. unfold _correct_spelling, _lemmatize.
  destruct (use_symspell self), (use_spacy self), (symspell self), (nlp self);
    reflexivity.
Qed.

(** X15 (normalize, _basic_clean, _correct_spelling, _lemmatize): a text
    without any character of [A-Za-z0-9.,!?'] (a review in Ethiopic
    script, emoji, symbols, whitespace) is cleaned to the empty text, and
    [normalize] returns the empty text for it whatever the switches and the
    tools are: neither tool is called on an empty text. *)
Theorem normalize_no_basic_character (self : TextNormalizer) (text : list N) :
  Forall (fun c => is_basic c = false) text ->
  _basic_clean text = [] /\ normalize self text = [].
Proof.
  intros Ht. pose proof (_basic_clean_no_basic text Ht) as H.
  split; [exact H|by apply normalize_nil].
Qed.

(** X16 (normalize): on a [str] the early exit changes nothing, the three
    stages alone return the empty text for a blank text; so with both
    switches off [normalize] is [_basic_clean], whatever tools the object
    holds. *)
Theorem normalize_stages (self : TextNormalizer) (text : list N) :
  normalize self text =
    (let result := _basic_clean text in
     let result :=
       if use_symspell self then _correct_spelling self result else result in
     if use_spacy self then _lemmatize self result else result) /\
  forall tool1 tool2,
    normalize {| use_symspell := false; use_spacy := false;
                 symspell := tool1; nlp := tool2 |} text
    = _basic_clean text.
Proof.
  assert (Hblank : strip text = [] -> _basic_clean text = []).
  { intros H. by apply _basic_clean_no_basic, whitespace_not_basic, strip_nil. }
  split.
  - destruct (decide (strip text = [])) as [Hs|Hs].
    + rewrite (normalize_nil self text (Hblank Hs)). cbv zeta.
      rewrite (Hblank Hs). unfold _correct_spelling, _lemmatize.
      destruct (use_symspell self), (use_spacy self), (symspell self),
        (nlp self); reflexivity.
    + unfold normalize. by rewrite bool_decide_eq_false_2.
  - intros tool1 tool2. unfold normalize. case_bool_decide as Hs; [|done].
    by rewrite (Hblank Hs).
Qed.

(** A URL token between whitespace. *)
Lemma strip_prefix_app_space (p s : list N) (w : N) (r : list N) :
  forallb (fun c => negb (isspace c)) p = true -> isspace w = true ->
  strip_prefix p (s ++ w :: r)
  = (fun s' => s' ++ w :: r) <$> strip_prefix p s.
Proof.
  intros Hp Hw. revert s. induction p as [|a p IH]; intros s; [done|].
  cbn [forallb] in Hp. apply andb_true_iff in Hp as [Ha Hp].
  destruct s as [|c s]; cbn [app strip_prefix].
  - replace (a =? w)%N with false; [done|]. symmetry. apply N.eqb_neq.
    intros ->. rewrite Hw in Ha. discriminate.
  - destruct (a =? c)%N; [by apply IH|done].
Qed.

Lemma non_space_follows_app_space (s : list N) (w : N) (r : list N) :
  isspace w = true -> non_space_follows (s ++ w :: r) = non_space_follows s.
Proof. intros Hw. destruct s; cbn; [by rewrite Hw|done]. Qed.

Lemma url_at_app_space (s : list N) (w : N) (r : list N) :
  isspace w = true -> url_at (s ++ w :: r) = url_at s.
Proof.
  intros Hw. unfold url_at. cbv zeta beta.
  rewrite !(strip_prefix_app_space _ s) by done.
  f_equal.
  - destruct (strip_prefix (codes "http") s) as [[|c s2]|];
      cbn [fmap option_fmap option_map app]; [| |done].
    + change (w :: r) with ([] ++ w :: r).
      rewrite !(strip_prefix_app_space _ []) by done.
      cbn. replace (w =? 115)%N with false; [done|].
      symmetry. apply N.eqb_neq. intros ->. discriminate.
    + rewrite app_comm_cons.
      rewrite !(strip_prefix_app_space _ s2),
        !(strip_prefix_app_space _ (c :: s2)) by done.
      destruct (strip_prefix (codes "://") s2),
        (strip_prefix (codes "://") (c :: s2));
        cbn [fmap option_fmap option_map];
        rewrite ?non_space_follows_app_space by done; reflexivity.
  - destruct (strip_prefix (codes "www.") s);
      cbn [fmap option_fmap option_map]; [|done].
    by apply non_space_follows_app_space.
Qed.

Lemma sub_urls_app_space (in_match : bool) (a : list N) (w : N) (r : list N) :
  isspace w = true ->
  sub_urls in_match (a ++ w :: r)
  = sub_urls in_match a ++ w :: sub_urls false r.
Proof.
  intros Hw. revert in_match. induction a as [|c a IH]; intros st.
  - cbn [app sub_urls]. destruct st; [by rewrite Hw|].
    change (w :: r) with ([] ++ w :: r) at 1.
    by rewrite url_at_app_space.
  - cbn [app sub_urls]. destruct st.
    + destruct (isspace c); rewrite IH; reflexivity.
    + rewrite app_comm_cons, url_at_app_space by done.
      destruct (url_at (c :: a)); rewrite IH; reflexivity.
Qed.

Lemma sub_urls_skip (u : list N) (w : N) (r : list N) :
  Forall (fun c => isspace c = false) u -> isspace w = true ->
  sub_urls true (u ++ w :: r) = w :: sub_urls false r.
Proof.
  intros Hu Hw. induction Hu as [|c u Hc _ IH]; cbn [app sub_urls].
  - by rewrite Hw.
  - by rewrite Hc.
Qed.

Lemma sub_spaces_run (after_space : bool) (x : list N) (w1 w2 : N)
    (y : list N) :
  isspace w1 = true -> isspace w2 = true ->
  sub_spaces after_space (x ++ w1 :: 32%N :: w2 :: y)
  = sub_spaces after_space (x ++ w1 :: y).
Proof.
  intros H1 H2. revert after_space. induction x as [|c x IH]; intros st.
  - cbn [app sub_spaces]. rewrite H1, H2.
    change (isspace 32%N) with true. by destruct st.
  - cbn [app sub_spaces]. destruct (isspace c); [destruct st|];
      by rewrite IH.
Qed.

(** X17 (_basic_clean): a token that starts with [http://], [https://] or
    [www.] followed by at least one more character is removed as a whole:
    between two whitespace characters it leaves the cleaned text as if it
    had not been written. *)
Theorem url_token_removed (a p u b : list N) (w1 w2 : N) :
  p = codes "http://" \/ p = codes "https://" \/ p = codes "www." ->
  u <> [] ->
  Forall (fun c => isspace c = false) u ->
  isspace w1 = true -> isspace w2 = true ->
  _basic_clean (a ++ w1 :: p ++ u ++ w2 :: b) = _basic_clean (a ++ w1 :: b).
Proof.
  intros Hp Hu Hns H1 H2.
  assert (Hurl : sub_urls false (p ++ u ++ w2 :: b)
                 = 32%N :: w2 :: sub_urls false b).
  { destruct u as [|c u]; [done|]. apply Forall_cons in Hns as [Hc Hns].
    assert (Hat : url_at (p ++ (c :: u) ++ w2 :: b) = true).
    { destruct Hp as [-> | [-> | ->]]; cbv -[isspace]; by rewrite Hc. }
    assert (Hrun : exists p0 p', p = p0 :: p' /\
                     Forall (fun c => isspace c = false) p').
    { destruct Hp as [-> | [-> | ->]]; eexists _, _;
        (split; [reflexivity|]); repeat constructor. }
    destruct Hrun as (p0 & p' & -> & Hp').
    cbn [app sub_urls]. cbn [app] in Hat. rewrite Hat. f_equal.
    change (c :: u ++ w2 :: b) with ((c :: u) ++ w2 :: b).
    rewrite app_assoc. apply sub_urls_skip; [|done].
    apply Forall_app. split; [done|by constructor]. }
  unfold _basic_clean. cbv zeta. do 2 f_equal.
  rewrite !sub_urls_app_space, Hurl by done.
  unfold sub_other. rewrite !fmap_app, !fmap_cons.
  change (is_basic 32 || isspace 32) with true. cbv iota.
  assert (Hw : forall w, isspace w = true ->
                 (if is_basic w || isspace w then w else 32%N) = w).
  { intros w ->. by rewrite orb_true_r. }
  rewrite !Hw by done. by apply sub_spaces_run.
Qed.

(** * Theme tagging and normalisation on sample texts *)

Lemma tag_review_monotone_witness :
  "Performance" ∈ @tag_review ascii_str_methods pipeline_seed_map
                    "Very SLOW login" "CBE" \/
  ("Performance" = "Other" /\
   @tag_review ascii_str_methods pipeline_seed_map "Slow" "CBE" = ["Other"]).
Proof.
  apply (@tag_review_monotone ascii_str_methods pipeline_seed_map
           "Slow" "Very SLOW login" "CBE" "Performance").
  - exists "very ", " login". reflexivity.
  - apply (bool_decide_unpack _). vm_compute. reflexivity.
Defined.

Lemma normalize_no_basic_character_witness :
  _basic_clean [4901; 4649; 32; 128077]%N = [] /\
  normalize stub_normalizer [4901; 4649; 32; 128077]%N = [].
Proof.
  apply (normalize_no_basic_character stub_normalizer).
  repeat constructor.
Defined.

Lemma url_token_removed_witness :
  _basic_clean (codes "see" ++ 32%N :: codes "https://" ++ codes "t.co/x?y=1"
                ++ 10%N :: codes "now")
  = _basic_clean (codes "see" ++ 32%N :: codes "now").
Proof.
  apply (url_token_removed (codes "see") (codes "https://")
           (codes "t.co/x?y=1") (codes "now") 32%N 10%N).
  - right. left. reflexivity.
  - discriminate.
  - repeat constructor.
  - reflexivity.
  - reflexivity.
Defined.

(** The proviso of [tag_review_themes] is needed: with a seed theme that
    is itself named "Other", ["Other"] is returned for a text that matches
    it as well as for one that matches nothing. *)
Lemma tag_review_theme_named_Other :
  let seed_map : gmap string (list (string * list string)) :=
    {[ "CBE" := [("Other", ["refund"])] ]} in
  @tag_review ascii_str_methods seed_map "Refund please" "CBE" = ["Other"] /\
  @tag_review ascii_str_methods seed_map "hello" "CBE" = ["Other"].
Proof. split; vm_compute; reflexivity. Qed.
